(** * Stock and price reconciliation for the seller and partner marketplaces

    A shallow embedding of the data transformations of [seller.py] and
    [market.py]: the price normaliser [price_conversion], the batcher
    [divide], and the reconciliation functions [create_stocks] and
    [create_prices] of both marketplaces, followed by the properties the
    specification states about them.

    Conventions of the embedding.
    - A Python [str] is a Rocq [string] holding its UTF-8 bytes.  The
      functions below only look for ASCII characters (the digits, ['.'],
      ['>']), and no byte of a multi-byte UTF-8 sequence is an ASCII byte,
      so working on bytes agrees with working on code points.
    - A Python exception is a value [Raise e] of the type [result].
    - A list that the source mutates in place ([offer_ids]) is threaded
      through explicitly: the function returns its final contents next to
      its own result, and a caller that holds the same list object sees
      them.
    - The values found in a spreadsheet row are [None], integers and
      strings; floating point cells are outside the embedding. *)

From Stdlib Require Import ZArith String Ascii List Lia.
From Stdlib Require Import DecimalString DecimalPos DecimalZ.
From stdpp Require Import base list strings gmap.

Local Open Scope string_scope.
Local Open Scope list_scope.

(** ** The Python fragment the sources use *)

Module Py.

Inductive exn : Type :=
| ValueError
| TypeError
| AttributeError
| IndexError
| StopIteration.

Inductive result (A : Type) : Type :=
| Ok (a : A)
| Raise (e : exn).
Arguments Ok {A} a.
Arguments Raise {A} e.

Definition bind {A B : Type} (r : result A) (k : A -> result B) : result B :=
  match r with
  | Ok a => k a
  | Raise e => Raise e
  end.

(** The objects a row of the spreadsheet holds. *)
Inductive value : Type :=
| PyNone
| PyInt (z : Z)
| PyStr (s : string).

(** A row is a [dict] from column names to objects. *)
Abbreviation dict := (gmap string value).

(** [d.get(key)]: the value, or [None] when the key is absent. *)
Definition get (d : dict) (key : string) : value :=
  match d !! key with
  | Some v => v
  | None => PyNone
  end.

(** *** Characters *)

Definition code (c : ascii) : Z := Z.of_N (N_of_ascii c).

Definition is_digit (c : ascii) : bool :=
  ((48 <=? code c) && (code c <=? 57))%Z.

Definition digit_val (c : ascii) : Z := (code c - 48)%Z.

(** ASCII white space as [str.strip] and [int] see it. *)
Definition is_space (c : ascii) : bool :=
  (((9 <=? code c) && (code c <=? 13))
   || ((28 <=? code c) && (code c <=? 32)))%Z.

(** *** [str(x)] and [int(x)] *)

Definition str_int (z : Z) : string := NilZero.string_of_int (Z.to_int z).

Definition str (v : value) : string :=
  match v with
  | PyNone => "None"
  | PyInt z => str_int z
  | PyStr s => s
  end.

Fixpoint lstrip (s : string) : string :=
  match s with
  | EmptyString => EmptyString
  | String c s' => if is_space c then lstrip s' else s
  end.

Fixpoint rstrip (s : string) : string :=
  match s with
  | EmptyString => EmptyString
  | String c s' =>
      match rstrip s' with
      | EmptyString => if is_space c then EmptyString else String c EmptyString
      | t => String c t
      end
  end.

Definition strip (s : string) : string := rstrip (lstrip s).

(** The digits of an integer literal: at least one digit, single
    underscores allowed between digits.  [seen] records whether the
    previous character was a digit. *)
Fixpoint int_digits (s : string) (acc : Z) (seen : bool) : result Z :=
  match s with
  | EmptyString => if seen then Ok acc else Raise ValueError
  | String c s' =>
      if is_digit c then int_digits s' (acc * 10 + digit_val c)%Z true
      else if Ascii.eqb c "_" then
        if seen then int_digits s' acc false else Raise ValueError
      else Raise ValueError
  end.

(** [int(s)] for a string: surrounding white space, an optional sign,
    decimal digits.  Python also accepts digits and spaces outside ASCII;
    here such a string raises, and nothing below relies on that case. *)
Definition int_of_str (s : string) : result Z :=
  match strip s with
  | String "-" ds =>
      match int_digits ds 0 false with
      | Ok n => Ok (- n)%Z
      | Raise e => Raise e
      end
  | String "+" ds => int_digits ds 0 false
  | ds => int_digits ds 0 false
  end.

Definition int (v : value) : result Z :=
  match v with
  | PyNone => Raise TypeError
  | PyInt z => Ok z
  | PyStr s => int_of_str s
  end.

(** *** Lists *)

(** [x in l] *)
Definition contains {A : Type} `{EqDecision A} (l : list A) (x : A) : bool :=
  bool_decide (x ∈ l).

(** [l.remove(x)]: drops the first occurrence, [ValueError] when there is
    none. *)
Fixpoint remove {A : Type} `{EqDecision A} (l : list A) (x : A)
  : result (list A) :=
  match l with
  | [] => Raise ValueError
  | y :: l' =>
      if decide (y = x) then Ok l'
      else bind (remove l' x) (fun r => Ok (y :: r))
  end.

(** [l[i]] for a non-negative index. *)
Definition getitem {A : Type} (l : list A) (i : nat) : result A :=
  match l !! i with
  | Some x => Ok x
  | None => Raise IndexError
  end.

(** [l[lo:hi]]: negative bounds count from the end, both are clamped. *)
Definition clamp (len i : Z) : Z :=
  (if i <? 0 then Z.max 0 (i + len) else Z.min i len)%Z.

Definition slice {A : Type} (l : list A) (lo hi : Z) : list A :=
  let len := Z.of_nat (length l) in
  let lo' := clamp len lo in
  let hi' := clamp len hi in
  take (Z.to_nat (hi' - lo')) (drop (Z.to_nat lo') l).

(** *** Strings *)

(** [s.split(sep)] for a one-character separator. *)
Fixpoint split (s : string) (sep : ascii) : list string :=
  match s with
  | EmptyString => [EmptyString]
  | String c s' =>
      if Ascii.eqb c sep then EmptyString :: split s' sep
      else match split s' sep with
           | [] => [String c EmptyString]
           | seg :: segs => String c seg :: segs
           end
  end.

(** [re.sub("[^lo-hi]", repl, s)]: every character outside the range is
    replaced by [repl]. *)
Fixpoint re_sub_outside (lo hi : ascii) (repl : string) (s : string) : string :=
  match s with
  | EmptyString => EmptyString
  | String c s' =>
      if ((code lo <=? code c) && (code c <=? code hi))%Z
      then String c (re_sub_outside lo hi repl s')
      else String.append repl (re_sub_outside lo hi repl s')
  end.

(** *** [range] and its iterator *)

Record range_iter : Type := RangeIter {
  ri_start : Z;
  ri_step : Z;
  ri_len : nat
}.

Definition range_len (lo hi step : Z) : nat :=
  (if 0 <? step then
     if lo <? hi then Z.to_nat (1 + (hi - 1 - lo) / step) else 0%nat
   else
     if hi <? lo then Z.to_nat (1 + (lo - 1 - hi) / (- step)) else 0%nat)%Z.

Definition range (lo hi step : Z) : result range_iter :=
  if (step =? 0)%Z then Raise ValueError
  else Ok (RangeIter lo step (range_len lo hi step)).

End Py.

Import Py.

Notation "'let!' x ':=' r 'in' k" := (Py.bind r (fun x => k))
  (at level 10, x pattern, r at level 100, k at level 200).

(** ** Talking to a marketplace

    The HTTP exchanges are not part of the embedding: a marketplace is what
    it answers to a request, given the requests it has received before, and
    a function that talks to it threads the list of the requests sent so
    far.  A computation may also not come back ([while True]): [None] says
    that it needs more turns than the bound it was given. *)

Module Net.

(** What ends a call early: a Python exception of the data functions, or
    one of the exceptions of [requests] ([HTTPError] is what
    [raise_for_status] raises). *)
Inductive failure : Type :=
| PyError (e : exn)
| HTTPError
| ReadTimeout
| ConnectionError.

Inductive outcome (A : Type) : Type :=
| Done (a : A)
| Failed (f : failure).
Arguments Done {A} a.
Arguments Failed {A} f.

(** A computation over the requests of type [R] sent so far. *)
Definition io (R A : Type) : Type := list R → option (outcome A * list R).

Definition ret {R A : Type} (a : A) : io R A := λ log, Some (Done a, log).

Definition fail {R A : Type} (f : failure) : io R A := λ log, Some (Failed f, log).

Definition bind {R A B : Type} (m : io R A) (k : A → io R B) : io R B :=
  λ log,
    match m log with
    | None => None
    | Some (Failed f, log') => Some (Failed f, log')
    | Some (Done a, log') => k a log'
    end.

(** A data function called from a computation: its exception propagates. *)
Definition lift {R A : Type} (r : result A) : io R A :=
  match r with
  | Ok a => ret a
  | Raise e => fail (PyError e)
  end.

(** [for x in xs: body(x)] *)
Fixpoint for_each {R A : Type} (body : A → io R unit) (xs : list A) : io R unit :=
  match xs with
  | [] => ret tt
  | x :: rest => bind (body x) (λ _, for_each body rest)
  end.

(** What the handlers of [main] print. *)
Inductive printed : Type :=
| PrintTimeout
| PrintConnection (f : failure)
| PrintError2 (f : failure).

(** [except ReadTimeout ... except ConnectionError ... except Exception]. *)
Definition handler (f : failure) : printed :=
  match f with
  | ReadTimeout => PrintTimeout
  | ConnectionError => PrintConnection f
  | _ => PrintError2 f
  end.

End Net.

Import Net.

Notation "'do!' x ':=' m 'in' k" := (Net.bind m (fun x => k))
  (at level 10, x pattern, m at level 100, k at level 200).

(** ** seller.py *)

Module Seller.

(** [{"offer_id": ..., "stock": ...}] *)
Record stock_payload : Type := StockPayload {
  offer_id : string;
  stock : Z
}.

(** The dictionary built by [create_prices]. *)
Record price_payload : Type := PricePayload {
  auto_action_enabled : string;
  currency_code : string;
  price_offer_id : string;
  old_price : string;
  price : string
}.

(** [price_conversion(price)]: [re.sub("[^0-9]", "", price.split(".")[0])].
    An object that is not a string has no [split]. *)
Definition price_conversion (price : value) : result string :=
  match price with
  | PyStr s =>
      let! seg := getitem (split s ".") 0 in
      Ok (re_sub_outside "0" "9" "" seg)
  | _ => Raise AttributeError
  end.

(** The quantity rule in the body of the first loop of [create_stocks]. *)
Definition resolve_stock (watch : dict) : result Z :=
  let count := str (get watch "Количество") in
  if String.eqb count ">10" then Ok 100%Z
  else if String.eqb count "1" then Ok 0%Z
  else int (get watch "Количество").

(** The first loop of [create_stocks]: [stocks] is the list built so far,
    [offer_ids] the current contents of the caller's list. *)
Fixpoint create_stocks_matched (watch_remnants : list dict)
    (stocks : list stock_payload) (offer_ids : list string)
  : result (list stock_payload * list string) :=
  match watch_remnants with
  | [] => Ok (stocks, offer_ids)
  | watch :: rest =>
      if contains offer_ids (str (get watch "Код")) then
        let! stock := resolve_stock watch in
        let stocks := stocks ++ [StockPayload (str (get watch "Код")) stock] in
        let! offer_ids := remove offer_ids (str (get watch "Код")) in
        create_stocks_matched rest stocks offer_ids
      else create_stocks_matched rest stocks offer_ids
  end.

(** The second loop: a zero payload for every id left in [offer_ids]. *)
Fixpoint create_stocks_missing (offer_ids : list string)
    (stocks : list stock_payload) : list stock_payload :=
  match offer_ids with
  | [] => stocks
  | offer_id :: rest =>
      create_stocks_missing rest (stocks ++ [StockPayload offer_id 0%Z])
  end.

(** [create_stocks(watch_remnants, offer_ids)]: the returned list, and the
    contents of [offer_ids] when the call returns. *)
Definition create_stocks (watch_remnants : list dict) (offer_ids : list string)
  : result (list stock_payload * list string) :=
  let! (stocks, offer_ids) := create_stocks_matched watch_remnants [] offer_ids in
  Ok (create_stocks_missing offer_ids stocks, offer_ids).

(** The loop of [create_prices]; [offer_ids] is only read. *)
Fixpoint create_prices_loop (watch_remnants : list dict)
    (prices : list price_payload) (offer_ids : list string)
  : result (list price_payload) :=
  match watch_remnants with
  | [] => Ok prices
  | watch :: rest =>
      if contains offer_ids (str (get watch "Код")) then
        let! p := price_conversion (get watch "Цена") in
        let price := PricePayload "UNKNOWN" "RUB" (str (get watch "Код")) "0" p in
        create_prices_loop rest (prices ++ [price]) offer_ids
      else create_prices_loop rest prices offer_ids
  end.

Definition create_prices (watch_remnants : list dict) (offer_ids : list string)
  : result (list price_payload) :=
  create_prices_loop watch_remnants [] offer_ids.

(** The two reconciliation steps of [main], on one list object: stocks
    first, then prices on what [create_stocks] left in [offer_ids]. *)
Definition main_reconcile (watch_remnants : list dict) (offer_ids : list string)
  : result (list stock_payload * list price_payload) :=
  let! (stocks, offer_ids) := create_stocks watch_remnants offer_ids in
  let! prices := create_prices watch_remnants offer_ids in
  Ok (stocks, prices).

(** *** The generator [divide] *)

Section Divide.
Context {A : Type}.

(** The frame of a generator object made by [divide(lst, n)]: not yet
    started, suspended at the [yield] inside the loop, or finished. *)
Inductive generator : Type :=
| Created (lst : list A) (n : Z)
| Suspended (lst : list A) (n : Z) (it : range_iter)
| Finished.

Definition divide (lst : list A) (n : Z) : generator := Created lst n.

(** One turn of [for i in range(...)]: the next index and chunk, or the end
    of the loop. *)
Definition divide_resume (lst : list A) (n : Z) (it : range_iter)
  : result (list A) * generator :=
  match ri_len it with
  | O => (Raise StopIteration, Finished)
  | S len =>
      let i := ri_start it in
      (Ok (slice lst i (i + n)),
       Suspended lst n (RangeIter (i + ri_step it) (ri_step it) len))
  end.

(** [next(g)] *)
Definition next (g : generator) : result (list A) * generator :=
  match g with
  | Created lst n =>
      match range 0 (Z.of_nat (length lst)) n with
      | Ok it => divide_resume lst n it
      | Raise e => (Raise e, Finished)
      end
  | Suspended lst n it => divide_resume lst n it
  | Finished => (Raise StopIteration, Finished)
  end.

(** [list(g)], given a bound on the number of calls of [next]; [None] when
    the bound is reached before the generator ends. *)
Fixpoint list_upto (fuel : nat) (g : generator) : option (result (list (list A))) :=
  match fuel with
  | O => None
  | S fuel =>
      match next g with
      | (Ok chunk, g') =>
          match list_upto fuel g' with
          | Some (Ok chunks) => Some (Ok (chunk :: chunks))
          | other => other
          end
      | (Raise StopIteration, _) => Some (Ok [])
      | (Raise e, _) => Some (Raise e)
      end
  end.

End Divide.

Arguments generator A : clear implicits.

(** [list(divide(lst, n))].  The bound on the number of turns is one more
    than the length of the list, which a positive [n] never reaches. *)
Definition batches {A : Type} (lst : list A) (n : Z)
  : option (result (list (list A))) :=
  list_upto (S (length lst)) (divide lst n).

(** *** The marketplace and the functions that talk to it *)

(** An entry of ["items"] in the answer to a listing request. *)
Record product : Type := Product {
  product_id : Z;
  product_offer_id : string
}.

(** The ["result"] of the answer to a listing request. *)
Record listing : Type := Listing {
  items : list product;
  total : Z;
  last_id : string
}.

(** The requests sent to the marketplace; the credentials go with each of
    them and are left out. *)
Inductive request : Type :=
| ProductList (last_id : string)
| ImportStocks (stocks : list stock_payload)
| ImportPrices (prices : list price_payload).

(** The marketplace: its answer to a request after the requests of the
    first argument.  The body of the answer to an import is not used by any
    caller. *)
Record marketplace : Type := Marketplace {
  product_list_answer : list request → string → outcome listing;
  import_stocks_answer : list request → list stock_payload → outcome unit;
  import_prices_answer : list request → list price_payload → outcome unit
}.

Section Api.
Context (api : marketplace).

(** [get_product_list(last_id, client_id, seller_token)] *)
Definition get_product_list (last_id : string) : io request listing :=
  λ log, Some (product_list_answer api log last_id, log ++ [ProductList last_id]).

(** [update_stocks(stocks, client_id, seller_token)] *)
Definition update_stocks (stocks : list stock_payload) : io request unit :=
  λ log, Some (import_stocks_answer api log stocks, log ++ [ImportStocks stocks]).

(** [update_price(prices, client_id, seller_token)] *)
Definition update_price (prices : list price_payload) : io request unit :=
  λ log, Some (import_prices_answer api log prices, log ++ [ImportPrices prices]).

(** The [while True] loop of [get_offer_ids], for at most [fuel] turns. *)
Fixpoint get_offer_ids_loop (fuel : nat) (last_id : string)
    (product_list : list product) : io request (list product) :=
  match fuel with
  | O => λ _, None
  | S fuel =>
      do! some_prod := get_product_list last_id in
      let product_list := product_list ++ items some_prod in
      if (total some_prod =? Z.of_nat (length product_list))%Z
      then ret product_list
      else get_offer_ids_loop fuel (Seller.last_id some_prod) product_list
  end.

(** [get_offer_ids(client_id, seller_token)] *)
Definition get_offer_ids (fuel : nat) : io request (list string) :=
  do! product_list := get_offer_ids_loop fuel "" [] in
  ret (product_offer_id <$> product_list).

(** [for some_stock in list(divide(stocks, n)): update_stocks(some_stock, ...)] *)
Definition push_stocks (stocks : list stock_payload) (n : Z) : io request unit :=
  match batches stocks n with
  | None => λ _, None
  | Some r => do! chunks := lift r in for_each update_stocks chunks
  end.

(** [for some_price in list(divide(prices, n)): update_price(some_price, ...)] *)
Definition push_prices (prices : list price_payload) (n : Z) : io request unit :=
  match batches prices n with
  | None => λ _, None
  | Some r => do! chunks := lift r in for_each update_price chunks
  end.

(** The body of the coroutine [upload_prices]. *)
Definition upload_prices (fuel : nat) (watch_remnants : list dict)
  : io request (list price_payload) :=
  do! offer_ids := get_offer_ids fuel in
  do! prices := lift (create_prices watch_remnants offer_ids) in
  do! _ := push_prices prices 1000 in
  ret prices.

(** The body of the coroutine [upload_stocks]. *)
Definition upload_stocks (fuel : nat) (watch_remnants : list dict)
  : io request (list stock_payload * list stock_payload) :=
  do! offer_ids := get_offer_ids fuel in
  do! (stocks, _) := lift (create_stocks watch_remnants offer_ids) in
  do! _ := push_stocks stocks 100 in
  let not_empty := filter (λ stock, Seller.stock stock ≠ 0%Z) stocks in
  ret (not_empty, stocks).

(** The [try] block of [main]; [download] is what [download_stock()]
    gives, the remnants or the exception of the download.  The list
    [offer_ids] that [create_prices] reads is the one [create_stocks] has
    worked on. *)
Definition main_try (fuel : nat) (download : outcome (list dict))
  : io request unit :=
  do! offer_ids := get_offer_ids fuel in
  do! watch_remnants :=
    (match download with Done ws => ret ws | Failed f => fail f end) in
  do! (stocks, offer_ids) := lift (create_stocks watch_remnants offer_ids) in
  do! _ := push_stocks stocks 100 in
  do! prices := lift (create_prices watch_remnants offer_ids) in
  push_prices prices 900.

(** [main()], the credentials being set: what it prints and the requests
    it has sent. *)
Definition main (fuel : nat) (download : outcome (list dict))
  : option (list printed * list request) :=
  match main_try fuel download [] with
  | None => None
  | Some (Done _, log) => Some ([], log)
  | Some (Failed f, log) => Some ([handler f], log)
  end.

End Api.

End Seller.

(** ** market.py *)

Module Market.

(** *** The clock *)

Record datetime : Type := DateTime {
  year : Z; month : Z; day : Z;
  hour : Z; minute : Z; second : Z; microsecond : Z
}.

(** [d.replace(microsecond=us)] *)
Definition replace_microsecond (d : datetime) (us : Z) : datetime :=
  DateTime (year d) (month d) (day d) (hour d) (minute d) (second d) us.

Fixpoint zeros (n : nat) : string :=
  match n with
  | O => EmptyString
  | S n => String "0" (zeros n)
  end.

(** ["%0<width>d" % z] for a field of a date, which is never negative. *)
Definition zfill (width : nat) (z : Z) : string :=
  let digits := str_int z in
  String.append (zeros (width - String.length digits)) digits.

(** [d.isoformat()] of a naive [datetime]. *)
Definition isoformat (d : datetime) : string :=
  String.concat "" [
    zfill 4 (year d); "-"; zfill 2 (month d); "-"; zfill 2 (day d); "T";
    zfill 2 (hour d); ":"; zfill 2 (minute d); ":"; zfill 2 (second d);
    if (microsecond d =? 0)%Z then "" else String.append "." (zfill 6 (microsecond d))
  ].

(** The system clock: what each successive reading returns, and how many
    readings were taken so far. *)
Record clock : Type := Clock {
  reading : nat -> datetime;
  reads : nat
}.

(** [datetime.datetime.utcnow()] *)
Definition utcnow (c : clock) : datetime * clock :=
  (reading c (reads c), Clock (reading c) (S (reads c))).

(** *** Payloads *)

(** [{"count": ..., "type": ..., "updatedAt": ...}] *)
Record item : Type := Item {
  count : Z;
  type : string;
  updatedAt : string
}.

(** [{"sku": ..., "warehouseId": ..., "items": [...]}] *)
Record stock_payload : Type := StockPayload {
  sku : string;
  warehouseId : value;
  items : list item
}.

(** The quantity rule, as written again in [market.py]. *)
Definition resolve_stock (watch : dict) : result Z :=
  let count := str (get watch "Количество") in
  if String.eqb count ">10" then Ok 100%Z
  else if String.eqb count "1" then Ok 0%Z
  else int (get watch "Количество").

(** The first loop of [create_stocks]. *)
Fixpoint create_stocks_matched (watch_remnants : list dict)
    (warehouse_id : value) (date : string)
    (stocks : list stock_payload) (offer_ids : list string)
  : result (list stock_payload * list string) :=
  match watch_remnants with
  | [] => Ok (stocks, offer_ids)
  | watch :: rest =>
      if contains offer_ids (str (get watch "Код")) then
        let! stock := resolve_stock watch in
        let stocks :=
          stocks ++ [StockPayload (str (get watch "Код")) warehouse_id
                       [Item stock "FIT" date]] in
        let! offer_ids := remove offer_ids (str (get watch "Код")) in
        create_stocks_matched rest warehouse_id date stocks offer_ids
      else create_stocks_matched rest warehouse_id date stocks offer_ids
  end.

(** The second loop of [create_stocks]. *)
Fixpoint create_stocks_missing (offer_ids : list string)
    (warehouse_id : value) (date : string)
    (stocks : list stock_payload) : list stock_payload :=
  match offer_ids with
  | [] => stocks
  | offer_id :: rest =>
      create_stocks_missing rest warehouse_id date
        (stocks ++ [StockPayload offer_id warehouse_id [Item 0%Z "FIT" date]])
  end.

(** [create_stocks(watch_remnants, offer_ids, warehouse_id)], run against a
    clock: the returned list with the final contents of [offer_ids], and the
    clock after the call. *)
Definition create_stocks (watch_remnants : list dict) (offer_ids : list string)
    (warehouse_id : value) (clk : clock)
  : result (list stock_payload * list string) * clock :=
  let (now, clk) := utcnow clk in
  let date := String.append (isoformat (replace_microsecond now 0)) "Z" in
  (let! (stocks, offer_ids) :=
     create_stocks_matched watch_remnants warehouse_id date [] offer_ids in
   Ok (create_stocks_missing offer_ids warehouse_id date stocks, offer_ids),
   clk).

(** *** Prices *)

(** [{"value": ..., "currencyId": ...}] *)
Record price : Type := Price {
  value : Z;
  currencyId : string
}.

(** [{"id": ..., "price": {...}}] *)
Record price_payload : Type := PricePayload {
  id : string;
  price_of : price
}.

(** The loop of [create_prices] of [market.py]: the normalised price is
    converted with [int]. *)
Fixpoint create_prices_loop (watch_remnants : list dict)
    (prices : list price_payload) (offer_ids : list string)
  : result (list price_payload) :=
  match watch_remnants with
  | [] => Ok prices
  | watch :: rest =>
      if contains offer_ids (str (get watch "Код")) then
        let! digits := Seller.price_conversion (get watch "Цена") in
        let! v := int (PyStr digits) in
        let price := PricePayload (str (get watch "Код")) (Price v "RUR") in
        create_prices_loop rest (prices ++ [price]) offer_ids
      else create_prices_loop rest prices offer_ids
  end.

Definition create_prices (watch_remnants : list dict) (offer_ids : list string)
  : result (list price_payload) :=
  create_prices_loop watch_remnants [] offer_ids.

(** *** The marketplace and the functions that talk to it *)

(** An entry of ["offerMappingEntries"], of which the code reads
    [["offer"]["shopSku"]]. *)
Record entry : Type := Entry {
  shopSku : string
}.

(** The ["result"] of the answer to a listing request; the token is absent
    ([None]) on the last page. *)
Record mapping_page : Type := MappingPage {
  offerMappingEntries : list entry;
  nextPageToken : option string
}.

(** The requests sent to the partner marketplace, each for a campaign. *)
Inductive request : Type :=
| OfferMappingEntries (campaign_id : string) (page_token : string)
| PutStocks (campaign_id : string) (skus : list stock_payload)
| PostPrices (campaign_id : string) (offers : list price_payload).

Record marketplace : Type := Marketplace {
  mapping_answer : list request → string → string → outcome mapping_page;
  stocks_answer : list request → string → list stock_payload → outcome unit;
  prices_answer : list request → string → list price_payload → outcome unit
}.

Section Api.
Context (api : marketplace).

(** [get_product_list(page, campaign_id, access_token)] *)
Definition get_product_list (page campaign_id : string)
  : io request mapping_page :=
  λ log, Some (mapping_answer api log campaign_id page,
               log ++ [OfferMappingEntries campaign_id page]).

(** [update_stocks(stocks, campaign_id, access_token)] *)
Definition update_stocks (campaign_id : string) (stocks : list stock_payload)
  : io request unit :=
  λ log, Some (stocks_answer api log campaign_id stocks,
               log ++ [PutStocks campaign_id stocks]).

(** [update_price(prices, campaign_id, access_token)] *)
Definition update_price (campaign_id : string) (prices : list price_payload)
  : io request unit :=
  λ log, Some (prices_answer api log campaign_id prices,
               log ++ [PostPrices campaign_id prices]).

(** The [while True] loop of [get_offer_ids], for at most [fuel] turns; it
    goes on while the token of the page is a non-empty string. *)
Fixpoint get_offer_ids_loop (fuel : nat) (campaign_id page : string)
    (product_list : list entry) : io request (list entry) :=
  match fuel with
  | O => λ _, None
  | S fuel =>
      do! some_prod := get_product_list page campaign_id in
      let product_list := product_list ++ offerMappingEntries some_prod in
      match nextPageToken some_prod with
      | Some (String c token) =>
          get_offer_ids_loop fuel campaign_id (String c token) product_list
      | _ => ret product_list
      end
  end.

(** [get_offer_ids(campaign_id, market_token)] *)
Definition get_offer_ids (fuel : nat) (campaign_id : string)
  : io request (list string) :=
  do! product_list := get_offer_ids_loop fuel campaign_id "" [] in
  ret (shopSku <$> product_list).

(** [for some_stock in list(divide(stocks, n)): update_stocks(...)] *)
Definition push_stocks (campaign_id : string) (stocks : list stock_payload)
    (n : Z) : io request unit :=
  match Seller.batches stocks n with
  | None => λ _, None
  | Some r => do! chunks := lift r in for_each (update_stocks campaign_id) chunks
  end.

(** [for some_prices in list(divide(prices, n)): update_price(...)] *)
Definition push_prices (campaign_id : string) (prices : list price_payload)
    (n : Z) : io request unit :=
  match Seller.batches prices n with
  | None => λ _, None
  | Some r => do! chunks := lift r in for_each (update_price campaign_id) chunks
  end.

(** The body of the coroutine [upload_prices]: it runs when the coroutine
    is awaited. *)
Definition upload_prices (fuel : nat) (watch_remnants : list dict)
    (campaign_id : string) : io request (list price_payload) :=
  do! offer_ids := get_offer_ids fuel campaign_id in
  do! prices := lift (create_prices watch_remnants offer_ids) in
  do! _ := push_prices campaign_id prices 500 in
  ret prices.

(** [list(filter(lambda stock: stock.get("items")[0].get("count") != 0,
    stocks))]: the index raises on a payload without items. *)
Fixpoint not_empty_stocks (stocks : list stock_payload)
  : result (list stock_payload) :=
  match stocks with
  | [] => Ok []
  | stock :: rest =>
      let! first := getitem (items stock) 0 in
      let! kept := not_empty_stocks rest in
      Ok (if decide (count first ≠ 0%Z) then stock :: kept else kept)
  end.

(** The body of the coroutine [upload_stocks]. *)
Definition upload_stocks (fuel : nat) (watch_remnants : list dict)
    (campaign_id : string) (warehouse_id : Py.value) (clk : clock)
  : io request (list stock_payload * list stock_payload * clock) :=
  do! offer_ids := get_offer_ids fuel campaign_id in
  let (made, clk) := create_stocks watch_remnants offer_ids warehouse_id clk in
  do! (stocks, _) := lift made in
  do! _ := push_stocks campaign_id stocks 2000 in
  do! not_empty := lift (not_empty_stocks stocks) in
  ret (not_empty, stocks, clk).

(** One target in the [try] block of [main]: the offers are listed, the
    stocks computed against the clock and sent.  The call
    [upload_prices(...)] that follows makes a coroutine and drops it: its
    body is not run. *)
Definition main_target (fuel : nat) (watch_remnants : list dict)
    (campaign_id warehouse_id : string) (clk : clock) : io request clock :=
  do! offer_ids := get_offer_ids fuel campaign_id in
  let (made, clk) := create_stocks watch_remnants offer_ids (PyStr warehouse_id) clk in
  do! (stocks, _) := lift made in
  do! _ := push_stocks campaign_id stocks 2000 in
  let _ := upload_prices fuel watch_remnants campaign_id in
  ret clk.

(** The [try] block of [main]: the FBS campaign, then the DBS one. *)
Definition main_try (fuel : nat) (watch_remnants : list dict)
    (campaign_fbs_id campaign_dbs_id warehouse_fbs_id warehouse_dbs_id : string)
    (clk : clock) : io request clock :=
  do! clk := main_target fuel watch_remnants campaign_fbs_id warehouse_fbs_id clk in
  main_target fuel watch_remnants campaign_dbs_id warehouse_dbs_id clk.

(** [main()], the five settings being set.  [download_stock()] is called
    before the [try]: its exception leaves [main] ([Failed]); otherwise
    [main] ends with what it has printed.  The requests sent come with
    either ending. *)
Definition main (fuel : nat) (download : outcome (list dict))
    (campaign_fbs_id campaign_dbs_id warehouse_fbs_id warehouse_dbs_id : string)
    (clk : clock) : option (outcome (list printed) * list request) :=
  match download with
  | Failed f => Some (Failed f, [])
  | Done watch_remnants =>
      match main_try fuel watch_remnants campaign_fbs_id campaign_dbs_id
              warehouse_fbs_id warehouse_dbs_id clk [] with
      | None => None
      | Some (Done _, log) => Some (Done [], log)
      | Some (Failed f, log) => Some (Done [handler f], log)
      end
  end.

End Api.

End Market.

(** ** Sample data *)

Module Samples.

Definition row (kod kolichestvo tsena : value) : dict :=
  <["Код" := kod]> (<["Количество" := kolichestvo]> (<["Цена" := tsena]> ∅)).

Definition casio : dict := row (PyInt 69785) (PyStr ">10") (PyStr "5'990.00 руб.").

Definition single : dict := row (PyInt 70001) (PyInt 1) (PyStr "12'490.00 руб.").

Definition four : dict := row (PyInt 70002) (PyInt 4) (PyStr "7'100.00 руб.").

Definition dozen : dict := row (PyStr "70003") (PyStr "12") (PyStr "990.00 руб.").

Definition catalogue : list dict := [casio; single; four; dozen].

Definition published : list string := ["70003"; "99999"; "69785"; "70001"; "70002"].

(** The row of [four] once more, after a delivery. *)
Definition restocked : dict := row (PyInt 70002) (PyInt 9) (PyStr "7'100.00 руб.").

Definition noon : Market.datetime := Market.DateTime 2024 3 7 12 0 5 123456.

Definition wall_clock : Market.clock := Market.Clock (fun _ => noon) 0.

(** A clock that advances by one second at every reading. *)
Definition ticking : Market.clock :=
  Market.Clock (λ k, Market.DateTime 2024 3 7 23 59 (Z.of_nat k) 250000) 58.

(** A seller shop of three products, listed in two pages; it accepts every
    import. *)
Definition first_page : Seller.listing :=
  Seller.Listing [Seller.Product 1 "69785"; Seller.Product 2 "70001"] 3 "bnVsbA==".

Definition second_page : Seller.listing :=
  Seller.Listing [Seller.Product 3 "99999"] 3 "".

Definition shop : Seller.marketplace :=
  Seller.Marketplace
    (λ _ last_id,
       if String.eqb last_id "" then Done first_page
       else if String.eqb last_id "bnVsbA==" then Done second_page
       else Failed HTTPError)
    (λ _ _, Done tt)
    (λ _ _, Done tt).

Definition is_import_stocks (r : Seller.request) : bool :=
  match r with
  | Seller.ImportStocks _ => true
  | _ => false
  end.

(** The same shop when it refuses the second import of stocks it gets. *)
Definition busy_shop : Seller.marketplace :=
  Seller.Marketplace
    (Seller.product_list_answer shop)
    (λ log _,
       if decide (length (filter (λ r, is_import_stocks r = true) log) = 1)
       then Failed HTTPError else Done tt)
    (λ _ _, Done tt).

(** A partner shop with the same three offers under every campaign, listed
    in two pages; it accepts every update. *)
Definition entries_one : Market.mapping_page :=
  Market.MappingPage [Market.Entry "69785"; Market.Entry "70001"] (Some "eyJuZXh0").

Definition entries_two : Market.mapping_page :=
  Market.MappingPage [Market.Entry "99999"] None.

Definition partner : Market.marketplace :=
  Market.Marketplace
    (λ _ _ page,
       if String.eqb page "" then Done entries_one
       else if String.eqb page "eyJuZXh0" then Done entries_two
       else Failed HTTPError)
    (λ _ _ _, Done tt)
    (λ _ _ _, Done tt).

End Samples.

(** ** What the reconciliation computes, stated on lists

    The definitions of this module follow the wording of the specification;
    the theorems below relate them to the loops of the two sources. *)

Module Reconcile.

(** The product code of a row, as a string. *)
Definition key (watch : dict) : string := str (get watch "Код").

(** [l] without the first occurrence of [x]. *)
Fixpoint drop_first (x : string) (l : list string) : list string :=
  match l with
  | [] => []
  | y :: l' => if decide (y = x) then l' else y :: drop_first x l'
  end.

(** The remnants that find their code in the working set when their turn
    comes; a code found is consumed. *)
Fixpoint matched (ws : list dict) (ids : list string) : list dict :=
  match ws with
  | [] => []
  | w :: ws' =>
      if decide (key w ∈ ids) then w :: matched ws' (drop_first (key w) ids)
      else matched ws' ids
  end.

(** The ids still in the working set after all remnants were seen. *)
Fixpoint leftover (ws : list dict) (ids : list string) : list string :=
  match ws with
  | [] => ids
  | w :: ws' =>
      if decide (key w ∈ ids) then leftover ws' (drop_first (key w) ids)
      else leftover ws' ids
  end.

(** The value of a numeric string: an optional minus sign and at least one
    decimal digit. *)
Fixpoint digits_value (s : string) (acc : Z) : option Z :=
  match s with
  | EmptyString => Some acc
  | String c s' =>
      if is_digit c then digits_value s' (acc * 10 + digit_val c)%Z else None
  end.

Definition numeral_value (s : string) : option Z :=
  match s with
  | EmptyString => None
  | String "-" EmptyString => None
  | String "-" ds => Z.opp <$> digits_value ds 0
  | ds => digits_value ds 0
  end.

(** The quantity rule of the specification, on the string form of the
    quantity. *)
Definition bucket (count : string) : option Z :=
  if String.eqb count ">10" then Some 100%Z
  else if String.eqb count "1" then Some 0%Z
  else numeral_value count.

(** The loop shared by the two [create_stocks], over the way a payload is
    built from an id and a count. *)
Section Loop.
Context {P : Type} (mk : string -> Z -> P).

Fixpoint matched_loop (ws : list dict) (stocks : list P) (ids : list string)
  : result (list P * list string) :=
  match ws with
  | [] => Ok (stocks, ids)
  | w :: ws' =>
      if contains ids (key w) then
        let! n := Seller.resolve_stock w in
        let! ids' := remove ids (key w) in
        matched_loop ws' (stocks ++ [mk (key w) n]) ids'
      else matched_loop ws' stocks ids
  end.

(** A payload [p] carries the code of the row [w] and its resolved count. *)
Definition payload_of (w : dict) (p : P) : Prop :=
  ∃ n, Seller.resolve_stock w = Ok n ∧ p = mk (key w) n.

End Loop.

(** The payload [market.py] builds for an id and a count. *)
Definition market_payload (warehouse_id : value) (date : string)
    (id : string) (n : Z) : Market.stock_payload :=
  Market.StockPayload id warehouse_id [Market.Item n "FIT" date].

(** The timestamp a call of the partner [create_stocks] puts in its
    payloads: the reading number [reads clk] of the clock, cut to seconds. *)
Definition market_date (clk : Market.clock) : string :=
  String.append
    (Market.isoformat
       (Market.replace_microsecond (Market.reading clk (Market.reads clk)) 0))
    "Z".

(** The segment of a string before its first ['.'] (the whole string when
    there is none). *)
Fixpoint before_first_dot (s : string) : string :=
  match s with
  | EmptyString => EmptyString
  | String c s' =>
      if Ascii.eqb c "." then EmptyString else String c (before_first_dot s')
  end.

(** A string without its characters that are not decimal digits. *)
Fixpoint keep_digits (s : string) : string :=
  match s with
  | EmptyString => EmptyString
  | String c s' =>
      if is_digit c then String c (keep_digits s') else keep_digits s'
  end.

Fixpoint has_digit (s : string) : bool :=
  match s with
  | EmptyString => false
  | String c s' => is_digit c || has_digit s'
  end.

(** [count] consecutive slices of length [n] of a list. *)
Fixpoint slices {A : Type} (count n : nat) (l : list A) : list (list A) :=
  match count with
  | O => []
  | S count => take n l :: slices count n (drop n l)
  end.

End Reconcile.

Import Reconcile.

(** ** Notions used to state what the rest of the code shows *)

Module Derived.

Fixpoint all_digits (s : string) : bool :=
  match s with
  | EmptyString => true
  | String c s' => is_digit c && all_digits s'
  end.

(** The value of a string of decimal digits, most significant first. *)
Fixpoint decimal (s : string) (acc : Z) : Z :=
  match s with
  | EmptyString => acc
  | String c s' => decimal s' (acc * 10 + digit_val c)%Z
  end.

(** The price cell of a row holds a string. *)
Definition string_price (w : dict) : bool :=
  match get w "Цена" with
  | PyStr _ => true
  | _ => false
  end.

(** The digits of the price of a row before its first ['.']. *)
Definition price_digits (w : dict) : string :=
  match get w "Цена" with
  | PyStr s => keep_digits (before_first_dot s)
  | _ => EmptyString
  end.

(** The price cell of a row holds a string with a digit before its first
    ['.']. *)
Definition priced (w : dict) : bool :=
  match get w "Цена" with
  | PyStr s => has_digit (before_first_dot s)
  | _ => false
  end.

(** The price payloads of the two marketplaces for a row. *)
Definition seller_price (w : dict) : Seller.price_payload :=
  Seller.PricePayload "UNKNOWN" "RUB" (key w) "0" (price_digits w).

Definition market_price (w : dict) : Market.price_payload :=
  Market.PricePayload (key w) (Market.Price (decimal (price_digits w) 0) "RUR").

(** The pages a listing run of the seller marketplace goes through: each
    page is the answer to the request that carries the [last_id] of the
    page before it, and the last page is the first one that reports as
    total the number of products received so far ([got] of them before the
    first page). *)
Fixpoint seller_paging (api : Seller.marketplace) (log : list Seller.request)
    (last_id : string) (got : nat) (pages : list Seller.listing) : Prop :=
  match pages with
  | [] => False
  | page :: rest =>
      Seller.product_list_answer api log last_id = Done page
      ∧ match rest with
        | [] => Seller.total page = Z.of_nat (got + length (Seller.items page))
        | _ :: _ =>
            Seller.total page ≠ Z.of_nat (got + length (Seller.items page))
            ∧ seller_paging api (log ++ [Seller.ProductList last_id])
                (Seller.last_id page) (got + length (Seller.items page)) rest
        end
  end.

(** The listing requests of such a run that starts with [last_id]. *)
Definition seller_listing_requests (last_id : string)
    (pages : list Seller.listing) : list Seller.request :=
  Seller.ProductList
    <$> take (length pages) (last_id :: (Seller.last_id <$> pages)).

Definition is_import_prices (r : Seller.request) : bool :=
  match r with
  | Seller.ImportPrices _ => true
  | _ => false
  end.

(** The token a page of the partner listing passes on, when it has one. *)
Definition token_of (page : Market.mapping_page) : string :=
  match Market.nextPageToken page with
  | Some token => token
  | None => EmptyString
  end.

(** The pages a listing run of the partner marketplace goes through: each
    page is the answer to the request that carries the token of the page
    before it, and the last page is the first one without a token or with
    an empty one. *)
Fixpoint market_paging (api : Market.marketplace) (log : list Market.request)
    (campaign_id page_token : string) (pages : list Market.mapping_page) : Prop :=
  match pages with
  | [] => False
  | page :: rest =>
      Market.mapping_answer api log campaign_id page_token = Done page
      ∧ match rest with
        | [] => token_of page = EmptyString
        | _ :: _ =>
            token_of page ≠ EmptyString
            ∧ market_paging api
                (log ++ [Market.OfferMappingEntries campaign_id page_token])
                campaign_id (token_of page) rest
        end
  end.

(** The listing requests of such a run that starts with [page_token]. *)
Definition market_listing_requests (campaign_id page_token : string)
    (pages : list Market.mapping_page) : list Market.request :=
  Market.OfferMappingEntries campaign_id
    <$> take (length pages) (page_token :: (token_of <$> pages)).


(** The campaign a request of the partner marketplace is for. *)
Definition campaign_of (r : Market.request) : string :=
  match r with
  | Market.OfferMappingEntries c _ => c
  | Market.PutStocks c _ => c
  | Market.PostPrices c _ => c
  end.

(** The count of the first item of a partner stock payload. *)
Definition market_count (p : Market.stock_payload) : Z :=
  match Market.items p with
  | i :: _ => Market.count i
  | [] => 0%Z
  end.

(** The ranges of the fields of a Python [datetime]. *)
Definition valid_datetime (d : Market.datetime) : Prop :=
  (1 ≤ Market.year d ≤ 9999 ∧ 1 ≤ Market.month d ≤ 12
   ∧ 1 ≤ Market.day d ≤ 31 ∧ 0 ≤ Market.hour d ≤ 23
   ∧ 0 ≤ Market.minute d ≤ 59 ∧ 0 ≤ Market.second d ≤ 59
   ∧ 0 ≤ Market.microsecond d ≤ 999999)%Z.

(** [n] written with exactly [width] decimal digits. *)
Definition fills (width : nat) (n : nat) : bool :=
  let s := Market.zfill width (Z.of_nat n) in
  all_digits s && (String.length s =? width)%nat.

End Derived.

Import Derived.

(** ** The documented examples, run on the embedding *)

Example price_conversion_not_a_string :
  Seller.price_conversion (PyInt 5990) = Raise AttributeError.
Proof. reflexivity. Qed.

Example int_of_str_samples :
  int_of_str " 12_3 " = Ok 123%Z ∧ int_of_str "-7" = Ok (-7)%Z
  ∧ int_of_str "007" = Ok 7%Z ∧ int_of_str "1__2" = Raise ValueError
  ∧ int_of_str "" = Raise ValueError ∧ int_of_str ">10" = Raise ValueError.
Proof. by vm_compute. Qed.

(** The end-to-end scenario of the specification. *)
Example reconcile_casio :
  Seller.create_stocks [Samples.casio] ["69785"; "99999"]
  = Ok ([Seller.StockPayload "69785" 100; Seller.StockPayload "99999" 0],
        ["99999"])
  ∧ Seller.create_prices [Samples.casio] ["69785"; "99999"]
    = Ok [Seller.PricePayload "UNKNOWN" "RUB" "69785" "0" "5990"].
Proof. by vm_compute. Qed.

Example market_timestamp :
  market_date Samples.wall_clock = "2024-03-07T12:00:05Z".
Proof. by vm_compute. Qed.

(** A quantity that is no number stops [create_stocks]. *)
Example create_stocks_bad_quantity :
  Seller.create_stocks
    [Samples.row (PyInt 69785) (PyStr "много") (PyStr "1.00")] ["69785"]
  = Raise ValueError.
Proof. by vm_compute. Qed.

(** ** Lists: removal of a first occurrence *)

Section DropFirst.
Implicit Types (x y : string) (l : list string).

Lemma remove_drop_first l x : x ∈ l → remove l x = Ok (drop_first x l).
Proof.
  induction l as [|y l IH]; intros Hin; [by apply elem_of_nil in Hin|].
  simpl. destruct (decide (y = x)) as [->|Hne]; [done|].
  apply elem_of_cons in Hin as [->|Hin]; [done|].
  by rewrite IH.
Qed.

Lemma drop_first_sublist x l : drop_first x l `sublist_of` l.
Proof.
  induction l as [|y l IH]; simpl; [done|].
  destruct (decide (y = x)); [by apply sublist_cons|by apply sublist_skip].
Qed.

Lemma drop_first_perm x l : x ∈ l → x :: drop_first x l ≡ₚ l.
Proof.
  induction l as [|y l IH]; intros Hin; [by apply elem_of_nil in Hin|].
  simpl. destruct (decide (y = x)) as [->|Hne]; [done|].
  apply elem_of_cons in Hin as [->|Hin]; [done|].
  rewrite Permutation_swap. by rewrite IH.
Qed.

Lemma drop_first_other x y l : y ≠ x → y ∈ l → y ∈ drop_first x l.
Proof.
  intros Hne. induction l as [|z l IH]; simpl; [done|].
  intros Hin. destruct (decide (z = x)) as [->|Hzx].
  - apply elem_of_cons in Hin as [->|Hin]; done.
  - apply elem_of_cons in Hin as [->|Hin]; [left|right; auto].
Qed.

Lemma drop_first_NoDup x l : NoDup l → NoDup (drop_first x l).
Proof. intros H. eapply sublist_NoDup; [done|apply drop_first_sublist]. Qed.

Lemma drop_first_gone x l : NoDup l → x ∉ drop_first x l.
Proof.
  induction l as [|y l IH]; simpl; intros Hnd; [apply not_elem_of_nil|].
  apply NoDup_cons in Hnd as [Hy Hnd].
  destruct (decide (y = x)) as [->|Hne]; [done|].
  apply not_elem_of_cons. split; [congruence|auto].
Qed.

Lemma drop_first_elem x y l : y ∈ drop_first x l → y ∈ l.
Proof. intros H. eapply elem_of_sublist; [done|apply drop_first_sublist]. Qed.

End DropFirst.

Lemma filter_ext_elem {A : Type} (P Q : A → Prop)
    `{∀ x, Decision (P x)} `{∀ x, Decision (Q x)} (l : list A) :
  (∀ x, x ∈ l → P x ↔ Q x) → filter P l = filter Q l.
Proof.
  induction l as [|a l IH]; intros Hext; [done|].
  assert (filter P l = filter Q l) as Hl.
  { apply IH. intros x Hx. apply Hext. by right. }
  destruct (decide (P a)) as [Ha|Ha].
  - rewrite !filter_cons_True; [by f_equal|by apply Hext; [left|]|done].
  - rewrite !filter_cons_False; [done| |done].
    intros HQ. apply Ha, Hext; [left|done].
Qed.

(** ** The matched remnants and the ids left over *)

Section Matched.
Implicit Types (w : dict) (ws : list dict) (ids : list string).

Lemma matched_sublist ws ids : matched ws ids `sublist_of` ws.
Proof.
  revert ids. induction ws as [|w ws IH]; intros ids; simpl; [done|].
  destruct (decide (key w ∈ ids)); [by apply sublist_skip|by apply sublist_cons].
Qed.

Lemma leftover_sublist ws ids : leftover ws ids `sublist_of` ids.
Proof.
  revert ids. induction ws as [|w ws IH]; intros ids; simpl; [done|].
  destruct (decide (key w ∈ ids)); [|done].
  etrans; [apply IH|apply drop_first_sublist].
Qed.

(** Every id of the working set ends either as the code of a matched
    remnant or among the ids left over, with its multiplicity. *)
Lemma matched_leftover_perm ws ids :
  (key <$> matched ws ids) ++ leftover ws ids ≡ₚ ids.
Proof.
  revert ids. induction ws as [|w ws IH]; intros ids; simpl; [done|].
  destruct (decide (key w ∈ ids)) as [Hin|Hin]; [|done].
  rewrite fmap_cons. simpl. rewrite IH. by apply drop_first_perm.
Qed.

Lemma matched_key_in ws ids w : w ∈ matched ws ids → key w ∈ ids.
Proof.
  intros Hw. rewrite <- (matched_leftover_perm ws ids).
  apply elem_of_app. left. by apply list_elem_of_fmap_2.
Qed.

Lemma leftover_stale ws ids id :
  id ∈ ids → id ∉ key <$> ws → id ∈ leftover ws ids.
Proof.
  revert ids. induction ws as [|w ws IH]; intros ids Hin Hnot; simpl; [done|].
  rewrite fmap_cons in Hnot. apply not_elem_of_cons in Hnot as [Hne Hnot].
  destruct (decide (key w ∈ ids)); [|by apply IH].
  apply IH; [|done]. by apply drop_first_other.
Qed.

Lemma leftover_NoDup ws ids : NoDup ids → NoDup (leftover ws ids).
Proof. intros H. eapply sublist_NoDup; [done|apply leftover_sublist]. Qed.

(** Without duplicates in the working set, no code of a remnant survives. *)
Lemma leftover_consumed ws ids w :
  NoDup ids → w ∈ ws → key w ∉ leftover ws ids.
Proof.
  revert ids. induction ws as [|w' ws IH]; intros ids Hnd Hw; simpl.
  { by apply elem_of_nil in Hw. }
  apply elem_of_cons in Hw as [->|Hw].
  - destruct (decide (key w' ∈ ids)) as [Hin|Hin].
    + intros Hleft. eapply drop_first_gone; [exact Hnd|].
      eapply elem_of_sublist; [exact Hleft|apply leftover_sublist].
    + intros Hleft. apply Hin.
      eapply elem_of_sublist; [exact Hleft|apply leftover_sublist].
  - destruct (decide (key w' ∈ ids)); [|by apply IH].
    apply IH; [by apply drop_first_NoDup|done].
Qed.

Lemma matched_filter ws ids :
  NoDup (key <$> ws) → matched ws ids = filter (λ w, key w ∈ ids) ws.
Proof.
  revert ids. induction ws as [|w ws IH]; intros ids Hnd; simpl; [done|].
  rewrite fmap_cons in Hnd. apply NoDup_cons in Hnd as [Hfresh Hnd].
  destruct (decide (key w ∈ ids)) as [Hin|Hin].
  - rewrite filter_cons_True by done. f_equal.
    rewrite IH by done. apply filter_ext_elem. intros w' Hw'.
    assert (key w' ≠ key w) as Hne.
    { intros Heq. apply Hfresh. rewrite <- Heq. by apply list_elem_of_fmap_2. }
    split; [apply drop_first_elem|by apply drop_first_other].
  - rewrite filter_cons_False by done. by apply IH.
Qed.

Lemma leftover_filter ws ids :
  NoDup ids → leftover ws ids = filter (λ id, id ∉ key <$> ws) ids.
Proof.
  revert ids. induction ws as [|w ws IH]; intros ids Hnd; simpl.
  { symmetry. induction ids as [|i ids IHi]; [done|].
    apply NoDup_cons in Hnd as [_ Hnd].
    rewrite filter_cons_True by apply not_elem_of_nil. f_equal. by apply IHi. }
  destruct (decide (key w ∈ ids)) as [Hin|Hin].
  - rewrite IH by by apply drop_first_NoDup.
    clear IH. induction ids as [|i ids IHi]; [by apply elem_of_nil in Hin|].
    apply NoDup_cons in Hnd as [Hi Hnd]. simpl.
    destruct (decide (i = key w)) as [->|Hne].
    + rewrite (filter_cons_False _ (key w)) by (intros H; apply H; left).
      apply filter_ext_elem. intros x Hx. rewrite ?fmap_cons, not_elem_of_cons.
      split; [|tauto]. intros Hx'. split; [|exact Hx']. intros ->. by apply Hi.
    + apply elem_of_cons in Hin as [Heq|Hin]; [by destruct Hne|].
      destruct (decide (i ∈ key <$> ws)) as [Hiws|Hiws].
      * rewrite !filter_cons_False; [by apply IHi| |tauto].
        intros H. apply H. by right.
      * rewrite !filter_cons_True; [f_equal; by apply IHi| |done].
        rewrite ?fmap_cons, not_elem_of_cons. done.
  - rewrite IH by done. apply filter_ext_elem. intros x Hx.
    rewrite ?fmap_cons, not_elem_of_cons. split; [|tauto].
    intros Hx'. split; [|exact Hx']. intros ->. by apply Hin.
Qed.

Lemma matched_app ws1 ws2 ids :
  matched (ws1 ++ ws2) ids = matched ws1 ids ++ matched ws2 (leftover ws1 ids).
Proof.
  revert ids. induction ws1 as [|w ws1 IH]; intros ids; simpl; [done|].
  destruct (decide (key w ∈ ids)); [|done]. by rewrite IH.
Qed.

Lemma leftover_app ws1 ws2 ids :
  leftover (ws1 ++ ws2) ids = leftover ws2 (leftover ws1 ids).
Proof.
  revert ids. induction ws1 as [|w ws1 IH]; intros ids; simpl; [done|].
  destruct (decide (key w ∈ ids)); done.
Qed.

End Matched.

(** ** The loops of [create_stocks] *)

Section Loops.
Context {P : Type} (mk : string → Z → P).
Implicit Types (ws : list dict) (ids : list string) (acc out : list P).

(** What a run of the first loop that returns has computed. *)
Lemma matched_loop_spec ws acc ids out ids' :
  matched_loop mk ws acc ids = Ok (out, ids') →
  ids' = leftover ws ids ∧
  ∃ ps, out = acc ++ ps ∧ Forall2 (payload_of mk) (matched ws ids) ps.
Proof.
  revert acc ids. induction ws as [|w ws IH]; intros acc ids Hrun; simpl in *.
  { injection Hrun as <- <-. split; [done|]. exists []. by rewrite app_nil_r. }
  unfold contains in Hrun. destruct (decide (key w ∈ ids)) as [Hin|Hin].
  - rewrite bool_decide_eq_true_2 in Hrun by done.
    destruct (Seller.resolve_stock w) as [n|e] eqn:Hn; [|done]. simpl in Hrun.
    rewrite (remove_drop_first _ _ Hin) in Hrun. simpl in Hrun.
    apply IH in Hrun as (-> & ps & -> & Hps). split; [done|].
    exists (mk (key w) n :: ps). split; [by rewrite <- app_assoc|].
    constructor; [by exists n|done].
  - rewrite bool_decide_eq_false_2 in Hrun by done. by apply IH.
Qed.


End Loops.

Lemma seller_matched_loop ws acc ids :
  Seller.create_stocks_matched ws acc ids
  = matched_loop Seller.StockPayload ws acc ids.
Proof.
  revert acc ids. induction ws as [|w ws IH]; intros acc ids; simpl; [done|].
  fold (key w). destruct (contains ids (key w)); [|done].
  destruct (Seller.resolve_stock w) as [n|e]; [|done]. simpl.
  destruct (remove ids (key w)) as [ids'|e]; [|done]. simpl. apply IH.
Qed.

Lemma seller_missing ids acc :
  Seller.create_stocks_missing ids acc
  = acc ++ ((λ id, Seller.StockPayload id 0%Z) <$> ids).
Proof.
  revert acc. induction ids as [|id ids IH]; intros acc; simpl.
  { by rewrite app_nil_r. }
  by rewrite IH, <- app_assoc.
Qed.

Lemma market_matched_loop ws wh date acc ids :
  Market.create_stocks_matched ws wh date acc ids
  = matched_loop (market_payload wh date) ws acc ids.
Proof.
  revert acc ids. induction ws as [|w ws IH]; intros acc ids; simpl; [done|].
  fold (key w). destruct (contains ids (key w)); [|done].
  change (Market.resolve_stock w) with (Seller.resolve_stock w).
  destruct (Seller.resolve_stock w) as [n|e]; [|done]. simpl.
  destruct (remove ids (key w)) as [ids'|e]; [|done]. simpl. apply IH.
Qed.

Lemma market_missing ids wh date acc :
  Market.create_stocks_missing ids wh date acc
  = acc ++ ((λ id, market_payload wh date id 0%Z) <$> ids).
Proof.
  revert acc. induction ids as [|id ids IH]; intros acc; simpl.
  { by rewrite app_nil_r. }
  by rewrite IH, <- app_assoc.
Qed.

(** A returning call of the seller [create_stocks], on lists. *)
Lemma seller_create_stocks_spec ws ids out ids' :
  Seller.create_stocks ws ids = Ok (out, ids') →
  ids' = leftover ws ids ∧
  ∃ ps, Forall2 (payload_of Seller.StockPayload) (matched ws ids) ps ∧
        out = ps ++ ((λ id, Seller.StockPayload id 0%Z) <$> leftover ws ids).
Proof.
  unfold Seller.create_stocks. rewrite seller_matched_loop.
  destruct (matched_loop _ ws [] ids) as [[stocks left]|e] eqn:Hrun; [|done].
  simpl. intros [= <- <-].
  apply matched_loop_spec in Hrun as (-> & ps & -> & Hps).
  split; [done|]. exists ps. split; [done|]. by rewrite seller_missing.
Qed.

(** A returning call of the partner [create_stocks], on lists. *)
Lemma market_create_stocks_spec ws ids wh clk out ids' clk' :
  Market.create_stocks ws ids wh clk = (Ok (out, ids'), clk') →
  clk' = Market.Clock (Market.reading clk) (S (Market.reads clk)) ∧
  ids' = leftover ws ids ∧
  ∃ ps, Forall2 (payload_of (market_payload wh (market_date clk)))
                (matched ws ids) ps ∧
        out = ps ++ ((λ id, market_payload wh (market_date clk) id 0%Z)
                       <$> leftover ws ids).
Proof.
  unfold Market.create_stocks. simpl. fold (market_date clk).
  rewrite market_matched_loop.
  destruct (matched_loop _ ws [] ids) as [[stocks left]|e] eqn:Hrun; [|done].
  simpl. intros [= <- <- <-].
  apply matched_loop_spec in Hrun as (-> & ps & -> & Hps).
  split; [done|]. split; [done|]. exists ps. split; [done|].
  by rewrite market_missing.
Qed.



(** ** Identifiers of the payloads *)

Section PayloadIds.
Context {P : Type} (mk : string → Z → P) (pid : P → string).
Hypothesis pid_mk : ∀ id n, pid (mk id n) = id.

Lemma payload_ids (ms : list dict) (ps : list P) :
  Forall2 (payload_of mk) ms ps → pid <$> ps = key <$> ms.
Proof.
  induction 1 as [|w p ms ps (n & _ & ->) _ IH]; [done|].
  rewrite !fmap_cons, pid_mk. by f_equal.
Qed.

Lemma zero_ids (ids : list string) : pid <$> ((λ id, mk id 0%Z) <$> ids) = ids.
Proof.
  induction ids as [|id ids IH]; [done|].
  rewrite !fmap_cons, pid_mk. by f_equal.
Qed.

(** The identifiers of the output are the input ids, rearranged. *)
Lemma output_ids_perm ws ids (ps : list P) :
  Forall2 (payload_of mk) (matched ws ids) ps →
  pid <$> (ps ++ ((λ id, mk id 0%Z) <$> leftover ws ids)) ≡ₚ ids.
Proof.
  intros Hps. rewrite fmap_app, (payload_ids _ _ Hps), zero_ids.
  apply matched_leftover_perm.
Qed.

Lemma filter_id_length (id : string) (out : list P) :
  length (filter (λ p, pid p = id) out)
  = length (filter (λ x, x = id) (pid <$> out)).
Proof.
  induction out as [|p out IH]; [done|]. rewrite fmap_cons.
  destruct (decide (pid p = id)) as [Hp|Hp].
  - rewrite !filter_cons_True by done. simpl. by rewrite IH.
  - by rewrite !filter_cons_False by done.
Qed.

End PayloadIds.

Lemma filter_eq_absent (x : string) (l : list string) :
  x ∉ l → filter (λ y, y = x) l = [].
Proof.
  induction l as [|y l IH]; intros Hx; [done|].
  apply not_elem_of_cons in Hx as [Hne Hx].
  rewrite filter_cons_False by congruence. by apply IH.
Qed.

Lemma filter_eq_once (x : string) (l : list string) :
  NoDup l → x ∈ l → filter (λ y, y = x) l = [x].
Proof.
  induction l as [|y l IH]; intros Hnd Hx; [by apply elem_of_nil in Hx|].
  apply NoDup_cons in Hnd as [Hy Hnd].
  destruct (decide (y = x)) as [->|Hne].
  - rewrite filter_cons_True by done. by rewrite filter_eq_absent.
  - rewrite filter_cons_False by done.
    apply elem_of_cons in Hx as [Heq|Hx]; [by destruct Hne|]. by apply IH.
Qed.

Lemma once_of_perm (x : string) (l l' : list string) :
  l' ≡ₚ l → NoDup l → x ∈ l → length (filter (λ y, y = x) l') = 1.
Proof.
  intros Hperm Hnd Hx. rewrite filter_eq_once; [done| |].
  - by rewrite Hperm.
  - by rewrite Hperm.
Qed.

(** The two counts of the specification add up to the length of the
    output, and every input id names one payload. *)
Lemma output_counts {P : Type} (mk : string → Z → P) (pid : P → string)
    ws ids (ps : list P) :
  (∀ id n, pid (mk id n) = id) →
  NoDup (key <$> ws) → NoDup ids →
  Forall2 (payload_of mk) (matched ws ids) ps →
  let out := ps ++ ((λ id, mk id 0%Z) <$> leftover ws ids) in
  length out
  = length (filter (λ w, key w ∈ ids) ws)
    + length (filter (λ id, id ∉ key <$> ws) ids)
  ∧ ∀ id, id ∈ ids → length (filter (λ p, pid p = id) out) = 1.
Proof.
  intros Hpid Hkeys Hids Hps out. split.
  - unfold out. rewrite length_app, length_fmap.
    rewrite <- (Forall2_length _ _ _ Hps).
    by rewrite matched_filter, leftover_filter.
  - intros id Hid. rewrite (filter_id_length pid).
    eapply once_of_perm; [|exact Hids|exact Hid].
    by apply output_ids_perm.
Qed.

(** ** Length of the stock list and coverage of the ids *)

(** C1, as amended: for remnants with pairwise distinct codes and a list of
    offer ids without repetition, the list returned by [create_stocks] (of
    the seller and of the partner marketplace) has as many payloads as there
    are remnants whose code is among the ids plus ids that are the code of
    no remnant, and every input id is the identifier of exactly one
    payload. *)
Theorem create_stocks_length_and_coverage (ws : list dict) (ids : list string) :
  NoDup (key <$> ws) → NoDup ids →
  (∀ out ids',
     Seller.create_stocks ws ids = Ok (out, ids') →
     length out
     = length (filter (λ w, key w ∈ ids) ws)
       + length (filter (λ id, id ∉ key <$> ws) ids)
     ∧ ∀ id, id ∈ ids →
         length (filter (λ p, Seller.offer_id p = id) out) = 1)
  ∧
  (∀ wh clk out ids' clk',
     Market.create_stocks ws ids wh clk = (Ok (out, ids'), clk') →
     length out
     = length (filter (λ w, key w ∈ ids) ws)
       + length (filter (λ id, id ∉ key <$> ws) ids)
     ∧ ∀ id, id ∈ ids →
         length (filter (λ p, Market.sku p = id) out) = 1).
Proof.
  intros Hkeys Hids. split.
  - intros out ids' Hrun.
    apply seller_create_stocks_spec in Hrun as (_ & ps & Hps & ->).
    by apply (output_counts Seller.StockPayload Seller.offer_id).
  - intros wh clk out ids' clk' Hrun.
    destruct (market_create_stocks_spec _ _ _ _ _ _ _ Hrun)
      as (_ & _ & ps & Hps & ->).
    by apply (output_counts (market_payload wh (market_date clk)) Market.sku).
Qed.

Lemma create_stocks_length_and_coverage_witness :
  (length [Seller.StockPayload "69785" 100; Seller.StockPayload "99999" 0]
   = length (filter (λ w, key w ∈ ["69785"; "99999"]) [Samples.casio])
     + length (filter (λ id, id ∉ key <$> [Samples.casio]) ["69785"; "99999"])
   ∧ ∀ id, id ∈ ["69785"; "99999"] →
       length (filter (λ p, Seller.offer_id p = id)
                 [Seller.StockPayload "69785" 100; Seller.StockPayload "99999" 0])
       = 1)
  ∧
  (let date := market_date Samples.wall_clock in
   let out := [market_payload PyNone date "69785" 100;
               market_payload PyNone date "99999" 0] in
   length out
   = length (filter (λ w, key w ∈ ["69785"; "99999"]) [Samples.casio])
     + length (filter (λ id, id ∉ key <$> [Samples.casio]) ["69785"; "99999"])
   ∧ ∀ id, id ∈ ["69785"; "99999"] →
       length (filter (λ p, Market.sku p = id) out) = 1).
Proof.
  assert (NoDup (key <$> [Samples.casio])) as Hkeys.
  { apply (bool_decide_unpack _). vm_compute. exact I. }
  assert (NoDup ["69785"; "99999"]) as Hids.
  { apply (bool_decide_unpack _). vm_compute. exact I. }
  destruct (create_stocks_length_and_coverage
              [Samples.casio] ["69785"; "99999"] Hkeys Hids) as [Hs Hm].
  split.
  - apply (Hs _ ["99999"]). vm_compute. reflexivity.
  - apply (Hm PyNone Samples.wall_clock _ ["99999"]
             (Market.Clock (λ _, Samples.noon) 1)).
    vm_compute. reflexivity.
Defined.

(** C1 as stated fails when an id occurs twice in [offer_ids]: one remnant
    consumes one occurrence, the other occurrence gets a zero payload, so
    two payloads carry the id and the list is longer than the two counts. *)
Lemma create_stocks_repeated_id_counterexample :
  NoDup (key <$> [Samples.casio]) ∧
  ¬ (∀ out ids',
       Seller.create_stocks [Samples.casio] ["69785"; "69785"] = Ok (out, ids') →
       length out
       = length (filter (λ w, key w ∈ ["69785"; "69785"]) [Samples.casio])
         + length (filter (λ id, id ∉ key <$> [Samples.casio])
                     ["69785"; "69785"])
       ∧ ∀ id, id ∈ ["69785"; "69785"] →
           length (filter (λ p, Seller.offer_id p = id) out) = 1).
Proof.
  split.
  { apply (bool_decide_unpack _). vm_compute. exact I. }
  intros Hclaim.
  destruct (Hclaim [Seller.StockPayload "69785" 100; Seller.StockPayload "69785" 0]
              ["69785"]) as [Hlen _].
  { vm_compute. reflexivity. }
  vm_compute in Hlen. discriminate Hlen.
Qed.

(** ** Numerals: [str] of an integer and [int] of a string *)

Section Numerals.
Local Open Scope Z_scope.

Lemma digit_not_space c : is_digit c = true → is_space c = false.
Proof. unfold is_digit, is_space. lia. Qed.






Lemma int_digits_of_value (s : string) (acc n : Z) (seen : bool) :
  digits_value s acc = Some n →
  s ≠ EmptyString ∨ seen = true →
  int_digits s acc seen = Ok n.
Proof.
  revert acc seen. induction s as [|c s IH]; intros acc seen Hval Hne; simpl in *.
  - destruct Hne as [Hne| ->]; [done|]. by injection Hval as ->.
  - destruct (is_digit c); [|done]. apply IH; [done|by right].
Qed.

Lemma rstrip_digits (s : string) (acc n : Z) :
  digits_value s acc = Some n → rstrip s = s.
Proof.
  revert acc. induction s as [|c s IH]; intros acc Hval; simpl in *; [done|].
  destruct (is_digit c) eqn:Hc; [|done].
  rewrite (IH _ Hval). destruct s; [|done].
  by rewrite (digit_not_space _ Hc).
Qed.

Lemma is_digit_cases c :
  is_digit c = true →
  (c = "0" ∨ c = "1" ∨ c = "2" ∨ c = "3" ∨ c = "4"
   ∨ c = "5" ∨ c = "6" ∨ c = "7" ∨ c = "8" ∨ c = "9")%char.
Proof.
  destruct c as [[] [] [] [] [] [] [] []]; intros H; vm_compute in H;
    try discriminate H; clear H;
    repeat (first [left; reflexivity | right]); reflexivity.
Qed.

(** [int] of a numeral is its value. *)
Lemma int_of_numeral (s : string) (n : Z) :
  numeral_value s = Some n → int_of_str s = Ok n.
Proof.
  destruct s as [|c s]; [done|].
  destruct (is_digit c) eqn:Hc.
  - intros Hval.
    assert (numeral_value (String c s) = digits_value (String c s) 0) as Hnum.
    { apply is_digit_cases in Hc.
      destruct Hc as [->|[->|[->|[->|[->|[->|[->|[->|[->| ->]]]]]]]]]; done. }
    rewrite Hnum in Hval.
    assert (strip (String c s) = String c s) as Hstrip.
    { unfold strip. simpl lstrip. rewrite (digit_not_space _ Hc).
      by apply (rstrip_digits _ 0 n). }
    unfold int_of_str. rewrite Hstrip.
    assert (int_digits (String c s) 0 false = Ok n) as Hint.
    { apply int_digits_of_value; [done|by left]. }
    apply is_digit_cases in Hc.
    destruct Hc as [->|[->|[->|[->|[->|[->|[->|[->|[->| ->]]]]]]]]];
      exact Hint.
  - destruct (Ascii.eqb c "-") eqn:Hminus.
    + apply Ascii.eqb_eq in Hminus as ->. destruct s as [|d s]; [done|].
      change (numeral_value (String "-" (String d s)))
        with (Z.opp <$> digits_value (String d s) 0).
      destruct (digits_value (String d s) 0) as [m|] eqn:Hm; [|done].
      intros [= <-].
      assert (strip (String "-" (String d s)) = String "-" (String d s)) as Hstrip.
      { unfold strip. change (lstrip (String "-" (String d s)))
          with (String "-" (String d s)).
        change (rstrip (String "-" (String d s)))
          with (match rstrip (String d s) with
                | EmptyString => String "-" EmptyString
                | t => String "-" t
                end).
        by rewrite (rstrip_digits _ _ _ Hm). }
      unfold int_of_str. rewrite Hstrip.
      by rewrite (int_digits_of_value _ _ _ false Hm) by by left.
    + intros Hval. exfalso.
      assert (numeral_value (String c s) = digits_value (String c s) 0) as Hnum.
      { apply Ascii.eqb_neq in Hminus.
        destruct c as [[] [] [] [] [] [] [] []]; try done. }
      rewrite Hnum in Hval. simpl in Hval. by rewrite Hc in Hval.
Qed.

End Numerals.

(** ** The quantity rule *)

Lemma bucket_more_than_ten : bucket ">10" = Some 100%Z.
Proof. reflexivity. Qed.

Lemma bucket_exactly_one : bucket "1" = Some 0%Z.
Proof. reflexivity. Qed.






(** ** Stale offers *)

Lemma Forall2_elem_r {A B : Type} (R : A → B → Prop) (l : list A) (k : list B) y :
  Forall2 R l k → y ∈ k → ∃ x, x ∈ l ∧ R x y.
Proof.
  induction 1 as [|x y' l k Hxy _ IH]; intros Hy; [by apply elem_of_nil in Hy|].
  apply elem_of_cons in Hy as [->|Hy].
  - exists x. split; [left|done].
  - destruct (IH Hy) as (x' & Hx' & HR). exists x'. split; [by right|done].
Qed.

(** In a list built by [create_stocks], a payload whose identifier is not
    the code of a remnant is one of the zero payloads of the second loop. *)
Lemma stale_payload {P : Type} (mk : string → Z → P) (pid : P → string)
    ws ids (ps : list P) id :
  (∀ i n, pid (mk i n) = i) →
  id ∈ ids → id ∉ key <$> ws →
  Forall2 (payload_of mk) (matched ws ids) ps →
  let out := ps ++ ((λ i, mk i 0%Z) <$> leftover ws ids) in
  mk id 0%Z ∈ out ∧ ∀ p, p ∈ out → pid p = id → p = mk id 0%Z.
Proof.
  intros Hpid Hin Hstale Hps out. split.
  - apply elem_of_app. right.
    apply (list_elem_of_fmap_2 (λ i, mk i 0%Z)). by apply leftover_stale.
  - intros p Hp Hid. apply elem_of_app in Hp as [Hp|Hp].
    + destruct (Forall2_elem_r _ _ _ _ Hps Hp) as (w & Hw & n & _ & ->).
      rewrite Hpid in Hid. destruct Hstale. rewrite <- Hid.
      apply list_elem_of_fmap_2.
      eapply elem_of_sublist; [exact Hw|apply matched_sublist].
    + apply list_elem_of_fmap in Hp as (i & -> & _).
      rewrite Hpid in Hid. by rewrite Hid.
Qed.

(** Every price payload carries the code of a remnant. *)
Lemma create_prices_loop_ids ws acc ids prices p :
  Seller.create_prices_loop ws acc ids = Ok prices →
  p ∈ prices →
  p ∈ acc ∨ Seller.price_offer_id p ∈ key <$> ws.
Proof.
  revert acc. induction ws as [|w ws IH]; intros acc Hrun Hp; simpl in *.
  { injection Hrun as <-. by left. }
  fold (key w) in Hrun. destruct (contains ids (key w)).
  - destruct (Seller.price_conversion (get w "Цена")) as [s|e]; [|done].
    simpl in Hrun. destruct (IH _ Hrun Hp) as [Hacc|Hws].
    + apply elem_of_app in Hacc as [Hacc|Hnew]; [by left|].
      apply list_elem_of_singleton in Hnew as ->. right. simpl. left.
    + right. by right.
  - destruct (IH _ Hrun Hp) as [Hacc|Hws]; [by left|right; by right].
Qed.

(** C3: an offer id that is in [offer_ids] and is the code of no remnant
    appears in the output of [create_stocks] with count 0 (and with no other
    count), and no payload of [create_prices] carries it. *)
Theorem stale_offers_zeroed_and_unpriced
    (ws : list dict) (ids : list string) (id : string) :
  id ∈ ids → id ∉ key <$> ws →
  (∀ out ids',
     Seller.create_stocks ws ids = Ok (out, ids') →
     Seller.StockPayload id 0 ∈ out
     ∧ ∀ p, p ∈ out → Seller.offer_id p = id → Seller.stock p = 0%Z)
  ∧
  (∀ wh clk out ids' clk',
     Market.create_stocks ws ids wh clk = (Ok (out, ids'), clk') →
     Market.StockPayload id wh [Market.Item 0 "FIT" (market_date clk)] ∈ out
     ∧ ∀ p, p ∈ out → Market.sku p = id →
         Forall (λ i, Market.count i = 0%Z) (Market.items p))
  ∧
  (∀ ids2 prices,
     Seller.create_prices ws ids2 = Ok prices →
     ∀ p, p ∈ prices → Seller.price_offer_id p ≠ id).
Proof.
  intros Hin Hstale. split; [|split].
  - intros out ids' Hrun.
    apply seller_create_stocks_spec in Hrun as (_ & ps & Hps & ->).
    destruct (stale_payload Seller.StockPayload Seller.offer_id
                ws ids ps id) as [Hzero Hall]; [done..|].
    split; [done|]. intros p Hp Hid. by rewrite (Hall p Hp Hid).
  - intros wh clk out ids' clk' Hrun.
    destruct (market_create_stocks_spec _ _ _ _ _ _ _ Hrun)
      as (_ & _ & ps & Hps & ->).
    destruct (stale_payload (market_payload wh (market_date clk)) Market.sku
                ws ids ps id) as [Hzero Hall]; [done..|].
    split; [exact Hzero|].
    intros p Hp Hid. rewrite (Hall p Hp Hid). simpl. by constructor.
  - intros ids2 prices Hrun p Hp Hid.
    destruct (create_prices_loop_ids _ _ _ _ _ Hrun Hp) as [Hnil|Hws].
    + by apply elem_of_nil in Hnil.
    + apply Hstale. by rewrite <- Hid.
Qed.

Lemma stale_offers_zeroed_and_unpriced_witness :
  (Seller.StockPayload "99999" 0
   ∈ [Seller.StockPayload "69785" 100; Seller.StockPayload "99999" 0]
   ∧ ∀ p, p ∈ [Seller.StockPayload "69785" 100; Seller.StockPayload "99999" 0] →
       Seller.offer_id p = "99999" → Seller.stock p = 0%Z)
  ∧ (∀ p, p ∈ [Seller.PricePayload "UNKNOWN" "RUB" "69785" "0" "5990"] →
       Seller.price_offer_id p ≠ "99999").
Proof.
  assert ("99999" ∈ ["69785"; "99999"]) as Hin.
  { apply (bool_decide_unpack _). vm_compute. exact I. }
  assert ("99999" ∉ key <$> [Samples.casio]) as Hstale.
  { apply (bool_decide_unpack _). vm_compute. exact I. }
  destruct (stale_offers_zeroed_and_unpriced
              [Samples.casio] ["69785"; "99999"] "99999" Hin Hstale)
    as (Hseller & _ & Hprices).
  split.
  - apply (Hseller _ ["99999"]). vm_compute. reflexivity.
  - apply (Hprices ["69785"; "99999"]). vm_compute. reflexivity.
Defined.

(** ** Order of the output *)



(** ** The timestamp of the partner payloads *)

Lemma payload_of_market_items wh date w p :
  payload_of (market_payload wh date) w p →
  ∃ n, Market.items p = [Market.Item n "FIT" date].
Proof. intros (n & _ & ->). by exists n. Qed.

(** C8: a call of the partner [create_stocks] reads the clock once, and
    every payload it returns, for a matched remnant or for an id left over,
    carries the timestamp made from that one reading. *)
Theorem create_stocks_single_timestamp
    (ws : list dict) (ids : list string) (wh : value) (clk : Market.clock)
    (out : list Market.stock_payload) (ids' : list string) (clk' : Market.clock) :
  Market.create_stocks ws ids wh clk = (Ok (out, ids'), clk') →
  Market.reads clk' = S (Market.reads clk)
  ∧ Market.reading clk' = Market.reading clk
  ∧ Forall (λ p, ∃ n, Market.items p
                      = [Market.Item n "FIT" (market_date clk)]) out.
Proof.
  intros Hrun.
  destruct (market_create_stocks_spec _ _ _ _ _ _ _ Hrun)
    as (-> & _ & ps & Hps & ->).
  split; [done|]. split; [done|].
  apply Forall_app. split.
  - apply Forall_forall. intros p Hp.
    destruct (Forall2_elem_r _ _ _ _ Hps Hp) as (w & _ & Hw).
    by apply payload_of_market_items in Hw.
  - apply Forall_fmap, Forall_forall. intros id _. by exists 0%Z.
Qed.

Lemma create_stocks_single_timestamp_witness :
  Market.reads (Market.Clock (Market.reading Samples.ticking) 59) = 59
  ∧ Market.reading (Market.Clock (Market.reading Samples.ticking) 59)
    = Market.reading Samples.ticking
  ∧ Forall (λ p, ∃ n, Market.items p
                      = [Market.Item n "FIT" (market_date Samples.ticking)])
      [market_payload (PyStr "fbs") "2024-03-07T23:59:58Z" "69785" 100;
       market_payload (PyStr "fbs") "2024-03-07T23:59:58Z" "99999" 0].
Proof.
  apply (create_stocks_single_timestamp
           [Samples.casio] ["69785"; "99999"] (PyStr "fbs") Samples.ticking
           _ ["99999"]).
  vm_compute. reflexivity.
Defined.

(** Also a call that raises has read the clock once. *)
Lemma create_stocks_reads_clock_once ws ids wh clk :
  Market.reads (snd (Market.create_stocks ws ids wh clk))
  = S (Market.reads clk).
Proof. done. Qed.

(** ** A code that occurs in two remnants *)

Section Duplicates.
Context {P : Type} (mk : string → Z → P) (pid : P → string).
Hypothesis pid_mk : ∀ id n, pid (mk id n) = id.

Lemma filter_other_payloads (k : string) (ms : list dict) (ps : list P) :
  Forall2 (payload_of mk) ms ps →
  (∀ w, w ∈ ms → key w ≠ k) →
  filter (λ p, pid p = k) ps = [].
Proof.
  induction 1 as [|w p ms ps (n & _ & ->) _ IH]; intros Hne; [done|].
  rewrite filter_cons_False.
  - apply IH. intros w' Hw'. apply Hne. by right.
  - rewrite pid_mk. apply Hne. left.
Qed.

Lemma filter_other_zeros (k : string) (l : list string) :
  k ∉ l → filter (λ p, pid p = k) ((λ id, mk id 0%Z) <$> l) = [].
Proof.
  induction l as [|i l IH]; intros Hk; [done|].
  apply not_elem_of_cons in Hk as [Hne Hk]. rewrite fmap_cons.
  rewrite filter_cons_False; [by apply IH|]. rewrite pid_mk. congruence.
Qed.

(** The first remnant that carries a code takes the id; with ids that are
    not repeated, nothing else in the output carries it. *)
Lemma first_occurrence_wins (pre post : list dict) (w : dict)
    (ids : list string) (ps : list P) :
  key w ∉ key <$> pre → key w ∈ ids → NoDup ids →
  Forall2 (payload_of mk) (matched (pre ++ w :: post) ids) ps →
  ∃ n, Seller.resolve_stock w = Ok n
    ∧ filter (λ p, pid p = key w)
        (ps ++ ((λ id, mk id 0%Z) <$> leftover (pre ++ w :: post) ids))
      = [mk (key w) n].
Proof.
  intros Hpre Hin Hnd Hps.
  pose proof (leftover_stale pre ids (key w) Hin Hpre) as Hleft.
  pose proof (leftover_NoDup pre ids Hnd) as Hnd'.
  rewrite matched_app in Hps. rewrite leftover_app. simpl in *.
  destruct (decide (key w ∈ leftover pre ids)) as [_|Hno]; [|done].
  set (rest := drop_first (key w) (leftover pre ids)) in *.
  assert (key w ∉ rest) as Hgone by by apply drop_first_gone.
  apply Forall2_app_inv_l in Hps as (ps1 & ps2 & Hps1 & Hps2 & ->).
  apply Forall2_cons_inv_l in Hps2 as (p & ps3 & (n & Hn & ->) & Hps3 & ->).
  exists n. split; [done|].
  rewrite !filter_app, filter_cons_True by apply pid_mk.
  rewrite (filter_other_payloads _ _ _ Hps1), (filter_other_payloads _ _ _ Hps3).
  - rewrite filter_other_zeros; [done|].
    intros Hk. apply Hgone.
    eapply elem_of_sublist; [exact Hk|apply leftover_sublist].
  - intros w' Hw' Heq. apply Hgone. rewrite <- Heq.
    by apply (matched_key_in post).
  - intros w' Hw' Heq. apply Hpre. rewrite <- Heq.
    apply list_elem_of_fmap_2.
    eapply elem_of_sublist; [exact Hw'|apply matched_sublist].
Qed.

End Duplicates.

(** C9, as amended: when a code occurs in several remnant records and is
    in [offer_ids] (which holds no id twice), [create_stocks] emits one
    payload for that code, and it carries the resolved quantity of the
    first such record; the later records find the id consumed. *)
Theorem create_stocks_first_record_wins
    (pre post : list dict) (w : dict) (ids : list string) :
  key w ∉ key <$> pre → key w ∈ ids → NoDup ids →
  (∀ out ids',
     Seller.create_stocks (pre ++ w :: post) ids = Ok (out, ids') →
     ∃ n, Seller.resolve_stock w = Ok n
       ∧ filter (λ p, Seller.offer_id p = key w) out
         = [Seller.StockPayload (key w) n])
  ∧
  (∀ wh clk out ids' clk',
     Market.create_stocks (pre ++ w :: post) ids wh clk = (Ok (out, ids'), clk') →
     ∃ n, Market.resolve_stock w = Ok n
       ∧ filter (λ p, Market.sku p = key w) out
         = [Market.StockPayload (key w) wh
              [Market.Item n "FIT" (market_date clk)]]).
Proof.
  intros Hpre Hin Hnd. split.
  - intros out ids' Hrun.
    apply seller_create_stocks_spec in Hrun as (_ & ps & Hps & ->).
    by apply (first_occurrence_wins Seller.StockPayload Seller.offer_id).
  - intros wh clk out ids' clk' Hrun.
    destruct (market_create_stocks_spec _ _ _ _ _ _ _ Hrun)
      as (_ & _ & ps & Hps & ->).
    by apply (first_occurrence_wins (market_payload wh (market_date clk))
                Market.sku).
Qed.

Lemma create_stocks_first_record_wins_witness :
  ∃ n, Seller.resolve_stock Samples.four = Ok n
    ∧ filter (λ p, Seller.offer_id p = key Samples.four)
        [Seller.StockPayload "69785" 100; Seller.StockPayload "70002" 4;
         Seller.StockPayload "99999" 0]
      = [Seller.StockPayload (key Samples.four) n].
Proof.
  assert (key Samples.four ∉ key <$> [Samples.casio]) as Hpre.
  { apply (bool_decide_unpack _). vm_compute. exact I. }
  assert (key Samples.four ∈ ["99999"; "70002"; "69785"]) as Hin.
  { apply (bool_decide_unpack _). vm_compute. exact I. }
  assert (NoDup ["99999"; "70002"; "69785"]) as Hnd.
  { apply (bool_decide_unpack _). vm_compute. exact I. }
  destruct (create_stocks_first_record_wins
              [Samples.casio] [Samples.restocked] Samples.four
              ["99999"; "70002"; "69785"] Hpre Hin Hnd) as [Hseller _].
  apply (Hseller _ ["99999"]). vm_compute. reflexivity.
Defined.

(** C9 as stated fails: of two records with the code 70002, quantities 4
    and 9, the payload carries 4, the quantity of the first. *)
Lemma create_stocks_last_record_counterexample :
  key Samples.four = key Samples.restocked
  ∧ Seller.resolve_stock Samples.restocked = Ok 9%Z
  ∧ ¬ (∀ out ids',
         Seller.create_stocks [Samples.four; Samples.restocked] ["70002"]
         = Ok (out, ids') →
         ∀ p, p ∈ out → Seller.offer_id p = "70002" →
           Seller.resolve_stock Samples.restocked = Ok (Seller.stock p)).
Proof.
  split; [by vm_compute|]. split; [by vm_compute|].
  intros Hclaim.
  specialize (Hclaim [Seller.StockPayload "70002" 4] []).
  assert (Seller.resolve_stock Samples.restocked = Ok 4%Z) as Hlast.
  { apply (Hclaim ltac:(vm_compute; reflexivity)
             (Seller.StockPayload "70002" 4)); [left|done]. }
  vm_compute in Hlast. discriminate Hlast.
Qed.

(** ** Prices after stocks, on one list of ids *)

Lemma create_prices_loop_unmatched ws acc ids :
  (∀ w, w ∈ ws → key w ∉ ids) →
  Seller.create_prices_loop ws acc ids = Ok acc.
Proof.
  revert acc. induction ws as [|w ws IH]; intros acc Hnone; simpl; [done|].
  fold (key w). unfold contains.
  rewrite bool_decide_eq_false_2 by (apply Hnone; left).
  apply IH. intros w' Hw'. apply Hnone. by right.
Qed.

(** C10, as amended: when [offer_ids] holds no id twice and
    [create_stocks] has run on it, [create_prices] on the same list and the
    same remnants returns the empty list, as in [main]: every code of a
    remnant was consumed or was never among the ids. *)
Theorem create_prices_after_create_stocks_empty
    (ws : list dict) (ids : list string)
    (out : list Seller.stock_payload) (ids' : list string) :
  NoDup ids →
  Seller.create_stocks ws ids = Ok (out, ids') →
  Seller.create_prices ws ids' = Ok []
  ∧ Seller.main_reconcile ws ids = Ok (out, []).
Proof.
  intros Hnd Hrun.
  assert (Seller.create_prices ws ids' = Ok []) as Hprices.
  { apply seller_create_stocks_spec in Hrun as (-> & _).
    apply create_prices_loop_unmatched. intros w Hw.
    by apply leftover_consumed. }
  split; [done|]. unfold Seller.main_reconcile. rewrite Hrun. simpl.
  by rewrite Hprices.
Qed.

Lemma create_prices_after_create_stocks_empty_witness :
  Seller.create_prices Samples.catalogue ["99999"] = Ok []
  ∧ Seller.main_reconcile Samples.catalogue Samples.published
    = Ok ([Seller.StockPayload "69785" 100; Seller.StockPayload "70001" 0;
           Seller.StockPayload "70002" 4; Seller.StockPayload "70003" 12;
           Seller.StockPayload "99999" 0], []).
Proof.
  apply (create_prices_after_create_stocks_empty
           Samples.catalogue Samples.published).
  - apply (bool_decide_unpack _). vm_compute. exact I.
  - vm_compute. reflexivity.
Defined.

(** C10 as stated fails when an id occurs twice in [offer_ids]: the
    remnant consumes one occurrence, finds the other one when the prices
    are computed, and gets a price payload. *)
Lemma create_prices_after_create_stocks_counterexample :
  ¬ (∀ out ids',
       Seller.create_stocks [Samples.casio] ["69785"; "69785"] = Ok (out, ids') →
       Seller.create_prices [Samples.casio] ids' = Ok []).
Proof.
  intros Hclaim.
  specialize (Hclaim
    [Seller.StockPayload "69785" 100; Seller.StockPayload "69785" 0]
    ["69785"] ltac:(vm_compute; reflexivity)).
  vm_compute in Hclaim. discriminate Hclaim.
Qed.

(** ** The price normaliser *)

Lemma split_dot_head (s : string) :
  ∃ rest, split s "." = before_first_dot s :: rest.
Proof.
  induction s as [|c s [rest IH]]; simpl; [by exists []|].
  destruct (Ascii.eqb c "."); [by eexists|].
  rewrite IH. by eexists.
Qed.

Lemma re_sub_keep_digits (s : string) :
  re_sub_outside "0" "9" "" s = keep_digits s.
Proof.
  induction s as [|c s IH]; simpl; [done|].
  change ((code "0" <=? code c)%Z && (code c <=? code "9")%Z)
    with (is_digit c).
  by destruct (is_digit c); rewrite IH.
Qed.

Lemma price_conversion_str (s : string) :
  Seller.price_conversion (PyStr s) = Ok (keep_digits (before_first_dot s)).
Proof.
  unfold Seller.price_conversion. destruct (split_dot_head s) as [rest ->].
  simpl. by rewrite re_sub_keep_digits.
Qed.

Lemma keep_digits_none (s : string) :
  has_digit s = false → keep_digits s = EmptyString.
Proof.
  induction s as [|c s IH]; simpl; [done|].
  destruct (is_digit c); [done|]. apply IH.
Qed.

(** C5: on a string, [price_conversion] returns the segment before the
    first ['.'] without its characters that are not decimal digits, hence
    the empty string when that segment holds no digit; the three examples
    of its documentation hold. *)
Theorem price_conversion_digits_before_dot :
  (∀ s, Seller.price_conversion (PyStr s)
        = Ok (keep_digits (before_first_dot s)))
  ∧ (∀ s, has_digit (before_first_dot s) = false →
          Seller.price_conversion (PyStr s) = Ok "")
  ∧ Seller.price_conversion (PyStr "5'990.00 руб.") = Ok "5990"
  ∧ Seller.price_conversion (PyStr "5990") = Ok "5990"
  ∧ Seller.price_conversion (PyStr "руб.") = Ok "".
Proof.
  split; [apply price_conversion_str|]. split; [|by vm_compute].
  intros s Hnone. by rewrite price_conversion_str, keep_digits_none.
Qed.

Lemma price_conversion_digits_before_dot_witness :
  Seller.price_conversion (PyStr "цена: договорная. 100") = Ok "".
Proof.
  apply (proj1 (proj2 price_conversion_digits_before_dot)).
  vm_compute. reflexivity.
Defined.

(** ** The batcher *)

Local Open Scope nat_scope.

Section Slices.
Context {A : Type}.
Implicit Types (l : list A) (n k count : nat).

Lemma slices_length count n l : length (slices count n l) = count.
Proof.
  revert l. induction count as [|count IH]; intros l; simpl; [done|].
  by rewrite IH.
Qed.

Lemma slices_lookup count n l j :
  j < count → slices count n l !! j = Some (take n (drop (j * n) l)).
Proof.
  revert l j. induction count as [|count IH]; intros l j Hj; [lia|].
  destruct j as [|j]; simpl; [done|].
  rewrite IH by lia. by rewrite drop_drop.
Qed.

Lemma slices_concat count n l :
  length l ≤ count * n → concat (slices count n l) = l.
Proof.
  revert l. induction count as [|count IH]; intros l Hlen; simpl in *.
  { by destruct l; [|simpl in Hlen; lia]. }
  rewrite IH; [apply take_drop|]. rewrite length_drop. lia.
Qed.

(** [l[i:i+n]] for an index inside or beyond the list and a positive
    length. *)
Lemma slice_take_drop l k n :
  slice l (Z.of_nat k) (Z.of_nat k + Z.of_nat n) = take n (drop k l).
Proof.
  unfold slice, clamp.
  assert ((Z.of_nat k <? 0)%Z = false) as -> by (apply Z.ltb_ge; lia).
  assert ((Z.of_nat k + Z.of_nat n <? 0)%Z = false) as ->
    by (apply Z.ltb_ge; lia).
  destruct (decide (k ≤ length l)) as [Hk|Hk].
  - replace (Z.to_nat (Z.min (Z.of_nat k) (Z.of_nat (length l)))) with k by lia.
    destruct (decide (k + n ≤ length l)) as [Hn|Hn].
    + f_equal. lia.
    + rewrite !take_ge; [done|rewrite length_drop; lia..].
  - rewrite !drop_ge by lia. by rewrite !take_nil.
Qed.

End Slices.

Section DivideFacts.
Context {A : Type}.
Implicit Types (lst : list A) (n : Z).

Lemma list_upto_created fuel lst n it :
  range 0 (Z.of_nat (length lst)) n = Ok it →
  Seller.list_upto fuel (Seller.divide lst n)
  = Seller.list_upto fuel (Seller.Suspended lst n it).
Proof. intros Hit. destruct fuel; simpl; [done|]. by rewrite Hit. Qed.

(** Draining a generator suspended in its loop. *)
Lemma list_upto_suspended lst (m k count fuel : nat) :
  count < fuel →
  Seller.list_upto fuel
    (Seller.Suspended lst (Z.of_nat m)
       (RangeIter (Z.of_nat k) (Z.of_nat m) count))
  = Some (Ok (slices count m (drop k lst))).
Proof.
  revert k fuel. induction count as [|count IH]; intros k fuel Hfuel.
  { destruct fuel; [lia|done]. }
  destruct fuel as [|fuel]; [lia|]. simpl.
  replace (Z.of_nat k + Z.of_nat m)%Z with (Z.of_nat (k + m)) by lia.
  rewrite IH by lia.
  replace (Z.of_nat (k + m)) with (Z.of_nat k + Z.of_nat m)%Z by lia.
  by rewrite slice_take_drop, drop_drop.
Qed.

End DivideFacts.

(** The number of turns of [range(0, len, m)] for a positive step. *)
Lemma range_len_positive (len m : nat) :
  0 < m →
  let count := range_len 0 (Z.of_nat len) (Z.of_nat m) in
  len ≤ count * m ∧ (0 < len → (count - 1) * m < len) ∧ (len = 0 → count = 0).
Proof.
  intros Hm. unfold range_len.
  assert ((0 <? Z.of_nat m)%Z = true) as -> by (apply Z.ltb_lt; lia).
  destruct (decide (len = 0)) as [->|Hlen]; [done|].
  assert ((0 <? Z.of_nat len)%Z = true) as -> by (apply Z.ltb_lt; lia).
  set (q := ((Z.of_nat len - 1 - 0) / Z.of_nat m)%Z).
  assert (0 ≤ q)%Z as Hq0 by (apply Z.div_pos; lia).
  pose proof (Z.mul_div_le (Z.of_nat len - 1 - 0) (Z.of_nat m) ltac:(lia)) as Hlo.
  pose proof (Z.mul_succ_div_gt (Z.of_nat len - 1 - 0) (Z.of_nat m) ltac:(lia))
    as Hhi.
  fold q in Hlo, Hhi. cbv zeta.
  replace (Z.to_nat (1 + q)) with (S (Z.to_nat q)) by lia.
  split; [|split; [|lia]].
  - nia.
  - intros _. simpl. nia.
Qed.

Lemma range_len_multiple (k m : nat) :
  0 < m → range_len 0 (Z.of_nat (k * m)) (Z.of_nat m) = k.
Proof.
  intros Hm. destruct (range_len_positive (k * m) m Hm) as (Hup & Hlow & Hzero).
  set (count := range_len 0 (Z.of_nat (k * m)) (Z.of_nat m)) in *.
  destruct (decide (k = 0)) as [->|Hk]; [by apply Hzero|].
  assert (0 < k * m) as Hpos by nia. specialize (Hlow Hpos). nia.
Qed.

(** What [list(divide(items, size))] is for a positive size. *)
Lemma divide_positive {A : Type} (items : list A) (m fuel : nat) :
  0 < m → length items < fuel →
  Seller.list_upto fuel (Seller.divide items (Z.of_nat m))
  = Some (Ok (slices (range_len 0 (Z.of_nat (length items)) (Z.of_nat m))
                m items)).
Proof.
  intros Hm Hfuel.
  destruct (range_len_positive (length items) m Hm) as (Hup & Hlow & Hzero).
  set (count := range_len 0 (Z.of_nat (length items)) (Z.of_nat m)) in *.
  rewrite (list_upto_created _ _ _ (RangeIter (Z.of_nat 0) (Z.of_nat m) count)).
  - rewrite (list_upto_suspended items m 0 count fuel); [done|].
    destruct (decide (length items = 0)) as [Hnil|Hnil]; [rewrite Hzero; lia|].
    specialize (Hlow ltac:(lia)). nia.
  - unfold range. assert ((Z.of_nat m =? 0)%Z = false) as ->; [|done].
    apply Z.eqb_neq. lia.
Qed.

Lemma slices_chunk_length {A : Type} (items : list A) (count m j : nat)
    (chunk : list A) :
  0 < m → (count - 1) * m < length items →
  slices count m items !! j = Some chunk →
  0 < length chunk ≤ m ∧ (S j < count → length chunk = m).
Proof.
  intros Hm Hlow Hj.
  assert (j < count) as Hlt.
  { apply lookup_lt_Some in Hj. by rewrite slices_length in Hj. }
  rewrite slices_lookup in Hj by done. injection Hj as <-.
  rewrite length_take, length_drop. split; [nia|]. intros Hnext. nia.
Qed.

(** C6: for a positive size, [divide] yields the consecutive slices of
    length [size] of the list, the last one possibly shorter and none empty;
    their concatenation is the list; a list of [k] times [size] elements,
    [k] positive, gives [k] chunks of length [size]; and
    [divide([1, 2, 3], 2)] yields [[1, 2]], then [[3]], then stops. *)
Theorem divide_consecutive_slices :
  (∀ (A : Type) (items : list A) (size : Z) (fuel : nat),
     (0 < size)%Z → length items < fuel →
     ∃ chunks,
       Seller.list_upto fuel (Seller.divide items size) = Some (Ok chunks)
       ∧ concat chunks = items
       ∧ (∀ j, j < length chunks →
            chunks !! j
            = Some (take (Z.to_nat size) (drop (j * Z.to_nat size) items)))
       ∧ (∀ j chunk, chunks !! j = Some chunk →
            0 < length chunk ≤ Z.to_nat size
            ∧ (S j < length chunks → length chunk = Z.to_nat size))
       ∧ (∀ k, 0 < k → length items = k * Z.to_nat size →
            length chunks = k
            ∧ Forall (λ chunk, length chunk = Z.to_nat size) chunks))
  ∧
  (let g0 := Seller.divide [1; 2; 3] 2 in
   let (r1, g1) := Seller.next g0 in
   let (r2, g2) := Seller.next g1 in
   let (r3, g3) := Seller.next g2 in
   r1 = Ok [1; 2] ∧ r2 = Ok [3] ∧ r3 = Raise StopIteration
   ∧ g3 = Seller.Finished).
Proof.
  split; [|by vm_compute].
  intros A items size fuel Hsize Hfuel.
  set (m := Z.to_nat size). assert (0 < m) as Hm by lia.
  replace size with (Z.of_nat m) by lia.
  destruct (range_len_positive (length items) m Hm) as (Hup & Hlow & Hzero).
  pose proof (divide_positive items m fuel Hm Hfuel) as Hrun.
  set (count := range_len 0 (Z.of_nat (length items)) (Z.of_nat m)) in *.
  exists (slices count m items).
  split; [done|]. split; [by apply slices_concat|]. split; [|split].
  - intros j Hj. rewrite slices_length in Hj. by apply slices_lookup.
  - intros j chunk Hj. rewrite slices_length.
    destruct (decide (length items = 0)) as [Hnil|Hnil].
    + apply lookup_lt_Some in Hj. rewrite slices_length, Hzero in Hj; lia.
    + eapply slices_chunk_length; [done| |done]. apply Hlow. lia.
  - intros k Hk Hlen. rewrite slices_length.
    assert (count = k) as Hcount.
    { unfold count. rewrite Hlen. by apply range_len_multiple. }
    split; [done|]. apply Forall_lookup. intros j chunk Hj.
    assert (j < k) as Hlt.
    { apply lookup_lt_Some in Hj. rewrite slices_length in Hj. lia. }
    rewrite slices_lookup in Hj by lia. injection Hj as <-.
    rewrite length_take, length_drop. nia.
Qed.

Lemma divide_consecutive_slices_witness :
  ∃ chunks,
    Seller.list_upto 6 (Seller.divide ["a"; "b"; "c"; "d"; "e"] 2)
    = Some (Ok chunks)
    ∧ concat chunks = ["a"; "b"; "c"; "d"; "e"]
    ∧ (∀ j, j < length chunks →
         chunks !! j
         = Some (take (Z.to_nat 2) (drop (j * Z.to_nat 2)
                                      ["a"; "b"; "c"; "d"; "e"])))
    ∧ (∀ j chunk, chunks !! j = Some chunk →
         0 < length chunk ≤ Z.to_nat 2
         ∧ (S j < length chunks → length chunk = Z.to_nat 2))
    ∧ (∀ k, 0 < k → length ["a"; "b"; "c"; "d"; "e"] = k * Z.to_nat 2 →
         length chunks = k
         ∧ Forall (λ chunk, length chunk = Z.to_nat 2) chunks).
Proof.
  apply (proj1 divide_consecutive_slices string
           ["a"; "b"; "c"; "d"; "e"] 2%Z 6); [reflexivity|simpl; lia].
Defined.

(** C7, as amended: iterating [divide(items, 0)] fails at its first step
    with the [ValueError] of [range]; for a negative size nothing fails:
    the range is empty and the generator ends without a chunk. *)
Theorem divide_nonpositive_size (A : Type) (items : list A) (size : Z) (fuel : nat) :
  (size ≤ 0)%Z → 0 < fuel →
  (size = 0%Z →
     Seller.next (Seller.divide items size) = (Raise ValueError, Seller.Finished)
     ∧ Seller.list_upto fuel (Seller.divide items size) = Some (Raise ValueError))
  ∧
  ((size < 0)%Z →
     Seller.next (Seller.divide items size) = (Raise StopIteration, Seller.Finished)
     ∧ Seller.list_upto fuel (Seller.divide items size) = Some (Ok [])).
Proof.
  intros _ Hfuel. destruct fuel as [|fuel]; [lia|]. split.
  - by intros ->.
  - intros Hneg. simpl. unfold range, range_len.
    assert ((size =? 0)%Z = false) as -> by (apply Z.eqb_neq; lia).
    assert ((0 <? size)%Z = false) as -> by (apply Z.ltb_ge; lia).
    assert ((Z.of_nat (length items) <? 0)%Z = false) as ->
      by (apply Z.ltb_ge; lia).
    done.
Qed.

Lemma divide_nonpositive_size_witness :
  (Seller.next (Seller.divide [1; 2; 3] 0) = (Raise ValueError, Seller.Finished)
   ∧ Seller.list_upto 4 (Seller.divide [1; 2; 3] 0) = Some (Raise ValueError))
  ∧
  (Seller.next (Seller.divide [1; 2; 3] (-2))
   = (Raise StopIteration, Seller.Finished)
   ∧ Seller.list_upto 4 (Seller.divide [1; 2; 3] (-2)) = Some (Ok [])).
Proof.
  assert (0 < 4) as Hfuel by lia.
  assert (0 ≤ 0)%Z as Hzero by lia.
  assert (-2 ≤ 0)%Z as Hneg by lia.
  split.
  - apply (proj1 (divide_nonpositive_size nat [1; 2; 3] 0 4 Hzero Hfuel)).
    reflexivity.
  - apply (proj2 (divide_nonpositive_size nat [1; 2; 3] (-2) 4 Hneg Hfuel)).
    reflexivity.
Defined.

(** C7 as stated fails for a negative size: whatever the number of steps,
    iterating [divide([1, 2, 3], -2)] raises nothing; it ends at once with
    no chunk. *)
Lemma divide_negative_size_counterexample :
  (-2 ≤ 0)%Z
  ∧ ¬ (∃ fuel e, Seller.list_upto fuel (Seller.divide [1; 2; 3] (-2))
                 = Some (Raise e))
  ∧ Seller.list_upto 1 (Seller.divide [1; 2; 3] (-2)) = Some (Ok []).
Proof.
  split; [done|]. split; [|done].
  intros (fuel & e & Hrun). destruct fuel; simpl in Hrun; discriminate Hrun.
Qed.

(** * Further properties of the code *)

(** ** The price normaliser, continued *)

Lemma keep_digits_all_digits (s : string) : all_digits (keep_digits s) = true.
Proof.
  induction s as [|c s IH]; simpl; [done|].
  destruct (is_digit c) eqn:Hc; [|done]. simpl. by rewrite Hc.
Qed.

Lemma all_digits_keep (t : string) : all_digits t = true → keep_digits t = t.
Proof.
  induction t as [|c t IH]; simpl; [done|].
  destruct (is_digit c); [|done]. simpl. intros Ht. by rewrite IH.
Qed.

Lemma all_digits_no_dot (t : string) :
  all_digits t = true → before_first_dot t = t.
Proof.
  induction t as [|c t IH]; simpl; [done|].
  destruct (is_digit c) eqn:Hc; [|done]. simpl. intros Ht.
  destruct (Ascii.eqb c ".") eqn:Hdot.
  - apply Ascii.eqb_eq in Hdot as ->. by vm_compute in Hc.
  - by rewrite IH.
Qed.

Lemma keep_digits_length (s : string) :
  String.length (keep_digits s) ≤ String.length s.
Proof.
  induction s as [|c s IH]; simpl; [done|].
  destruct (is_digit c); simpl; lia.
Qed.

Lemma before_first_dot_length (s : string) :
  String.length (before_first_dot s) ≤ String.length s.
Proof.
  induction s as [|c s IH]; simpl; [done|].
  destruct (Ascii.eqb c "."); simpl; lia.
Qed.

(** X1: on every string [price_conversion] returns a string of decimal
    digits only, no longer than its argument, and applying it to its own
    result changes nothing. *)
Theorem price_conversion_idempotent (s : string) :
  ∃ t, Seller.price_conversion (PyStr s) = Ok t
    ∧ all_digits t = true
    ∧ String.length t ≤ String.length s
    ∧ Seller.price_conversion (PyStr t) = Ok t.
Proof.
  exists (keep_digits (before_first_dot s)).
  pose proof (keep_digits_all_digits (before_first_dot s)) as Hdigits.
  split; [apply price_conversion_str|]. split; [done|]. split.
  - etrans; [apply keep_digits_length|apply before_first_dot_length].
  - rewrite price_conversion_str.
    by rewrite (all_digits_no_dot _ Hdigits), (all_digits_keep _ Hdigits).
Qed.

(** ** Prices of the seller marketplace *)

Lemma seller_price_conversion (w : dict) :
  string_price w = true →
  Seller.price_conversion (get w "Цена") = Ok (price_digits w).
Proof.
  unfold string_price, price_digits.
  destruct (get w "Цена") as [|z|s]; [done..|]. intros _.
  apply price_conversion_str.
Qed.

Lemma seller_price_conversion_fails (w : dict) :
  string_price w = false →
  Seller.price_conversion (get w "Цена") = Raise AttributeError.
Proof. unfold string_price. by destruct (get w "Цена"). Qed.

Lemma seller_prices_loop_ok ws acc ids :
  Forall (λ w, key w ∈ ids → string_price w = true) ws →
  Seller.create_prices_loop ws acc ids
  = Ok (acc ++ (seller_price <$> filter (λ w, key w ∈ ids) ws)).
Proof.
  revert acc. induction ws as [|w ws IH]; intros acc Hok; simpl.
  { by rewrite app_nil_r. }
  apply Forall_cons in Hok as [Hw Hok]. fold (key w). unfold contains.
  destruct (decide (key w ∈ ids)) as [Hin|Hin].
  - rewrite bool_decide_eq_true_2, filter_cons_True by done.
    rewrite (seller_price_conversion w (Hw Hin)). simpl.
    rewrite IH by done. by rewrite <- app_assoc.
  - rewrite bool_decide_eq_false_2, filter_cons_False by done. by apply IH.
Qed.

Lemma seller_prices_loop_fails ws acc ids :
  Exists (λ w, key w ∈ ids ∧ string_price w = false) ws →
  Seller.create_prices_loop ws acc ids = Raise AttributeError.
Proof.
  revert acc. induction ws as [|w ws IH]; intros acc Hbad; simpl.
  { by apply Exists_nil in Hbad. }
  fold (key w). unfold contains.
  destruct (decide (key w ∈ ids)) as [Hin|Hin].
  - rewrite bool_decide_eq_true_2 by done.
    destruct (string_price w) eqn:Hw.
    + rewrite (seller_price_conversion w Hw). simpl. apply IH.
      apply Exists_cons in Hbad as [[_ Hbad]|Hbad]; [congruence|done].
    + by rewrite (seller_price_conversion_fails w Hw).
  - rewrite bool_decide_eq_false_2 by done. apply IH.
    apply Exists_cons in Hbad as [[Hbad _]|Hbad]; [done|done].
Qed.



(** ** Prices of the partner marketplace *)

Lemma digits_value_decimal (s : string) (acc : Z) :
  all_digits s = true → digits_value s acc = Some (decimal s acc).
Proof.
  revert acc. induction s as [|c s IH]; intros acc; simpl; [done|].
  destruct (is_digit c); [|done]. simpl. apply IH.
Qed.

Lemma numeral_value_digit_head (c : ascii) (s : string) :
  is_digit c = true →
  numeral_value (String c s) = digits_value (String c s) 0.
Proof.
  intros Hc. apply is_digit_cases in Hc.
  destruct Hc as [->|[->|[->|[->|[->|[->|[->|[->|[->| ->]]]]]]]]]; done.
Qed.

(** [int] of a non-empty string of digits is its decimal value; of the
    empty string it is an error. *)
Lemma int_of_digits (t : string) :
  all_digits t = true → t ≠ EmptyString → int_of_str t = Ok (decimal t 0).
Proof.
  intros Hdigits Hne. apply int_of_numeral.
  destruct t as [|c t]; [done|].
  simpl in Hdigits. apply andb_prop in Hdigits as [Hc Ht].
  rewrite (numeral_value_digit_head _ _ Hc).
  apply digits_value_decimal. simpl. by rewrite Hc.
Qed.

Lemma keep_digits_nonempty (s : string) :
  has_digit s = true → keep_digits s ≠ EmptyString.
Proof.
  induction s as [|c s IH]; simpl; [done|].
  destruct (is_digit c); [done|]. apply IH.
Qed.

Lemma market_price_value (w : dict) :
  string_price w = true →
  (let! digits := Seller.price_conversion (get w "Цена") in int (PyStr digits))
  = if priced w then Ok (decimal (price_digits w) 0) else Raise ValueError.
Proof.
  intros Hstr. rewrite (seller_price_conversion w Hstr). simpl.
  unfold priced, price_digits, string_price in *.
  destruct (get w "Цена") as [|z|s]; [done..|].
  destruct (has_digit (before_first_dot s)) eqn:Hd.
  - apply int_of_digits; [apply keep_digits_all_digits|].
    by apply keep_digits_nonempty.
  - by rewrite keep_digits_none.
Qed.

Lemma priced_string (w : dict) : priced w = true → string_price w = true.
Proof. unfold priced, string_price. by destruct (get w "Цена"). Qed.

Lemma market_prices_loop_ok ws acc ids :
  Forall (λ w, key w ∈ ids → priced w = true) ws →
  Market.create_prices_loop ws acc ids
  = Ok (acc ++ (market_price <$> filter (λ w, key w ∈ ids) ws)).
Proof.
  revert acc. induction ws as [|w ws IH]; intros acc Hok; simpl.
  { by rewrite app_nil_r. }
  apply Forall_cons in Hok as [Hw Hok]. fold (key w). unfold contains.
  destruct (decide (key w ∈ ids)) as [Hin|Hin].
  - rewrite bool_decide_eq_true_2, filter_cons_True by done.
    specialize (Hw Hin).
    rewrite (seller_price_conversion w (priced_string w Hw)). simpl.
    pose proof (market_price_value w (priced_string w Hw)) as Hv.
    rewrite (seller_price_conversion w (priced_string w Hw)), Hw in Hv.
    simpl in Hv. rewrite Hv. simpl.
    rewrite IH by done. by rewrite <- app_assoc.
  - rewrite bool_decide_eq_false_2, filter_cons_False by done. by apply IH.
Qed.

Lemma market_prices_loop_fails ws acc ids :
  Exists (λ w, key w ∈ ids ∧ priced w = false) ws →
  ∃ e, Market.create_prices_loop ws acc ids = Raise e
       ∧ (e = AttributeError ∨ e = ValueError).
Proof.
  revert acc. induction ws as [|w ws IH]; intros acc Hbad; simpl.
  { by apply Exists_nil in Hbad. }
  fold (key w). unfold contains.
  destruct (decide (key w ∈ ids)) as [Hin|Hin].
  - rewrite bool_decide_eq_true_2 by done.
    destruct (string_price w) eqn:Hstr.
    + pose proof (market_price_value w Hstr) as Hv.
      rewrite (seller_price_conversion w Hstr) in *. simpl in *. rewrite Hv.
      destruct (priced w) eqn:Hw.
      * simpl. apply IH.
        apply Exists_cons in Hbad as [[_ Hbad]|Hbad]; [congruence|done].
      * exists ValueError. split; [done|by right].
    + rewrite (seller_price_conversion_fails w Hstr). simpl.
      exists AttributeError. split; [done|by left].
  - rewrite bool_decide_eq_false_2 by done. apply IH.
    apply Exists_cons in Hbad as [[Hbad _]|Hbad]; [done|done].
Qed.



(** ** Stocks: the ids of the output, failures, edge cases *)

(** X4: whatever the lists, repeated entries included, [create_stocks]
    returns exactly one payload per entry of [offer_ids]: the identifiers
    of the output are the input ids rearranged, and what is left in
    [offer_ids] after the call is a subsequence of what it held. *)
Theorem create_stocks_ids_rearranged (ws : list dict) (ids : list string) :
  (∀ out ids',
     Seller.create_stocks ws ids = Ok (out, ids') →
     Seller.offer_id <$> out ≡ₚ ids
     ∧ length out = length ids
     ∧ ids' `sublist_of` ids)
  ∧
  (∀ wh clk out ids' clk',
     Market.create_stocks ws ids wh clk = (Ok (out, ids'), clk') →
     Market.sku <$> out ≡ₚ ids
     ∧ length out = length ids
     ∧ ids' `sublist_of` ids).
Proof.
  split.
  - intros out ids' Hrun.
    apply seller_create_stocks_spec in Hrun as (-> & ps & Hps & ->).
    pose proof (output_ids_perm Seller.StockPayload Seller.offer_id
                  ltac:(done) ws ids ps Hps) as Hperm.
    split; [done|]. split; [|apply leftover_sublist].
    by rewrite <- (length_fmap Seller.offer_id), Hperm.
  - intros wh clk out ids' clk' Hrun.
    destruct (market_create_stocks_spec _ _ _ _ _ _ _ Hrun)
      as (_ & -> & ps & Hps & ->).
    pose proof (output_ids_perm (market_payload wh (market_date clk)) Market.sku
                  ltac:(done) ws ids ps Hps) as Hperm.
    split; [done|]. split; [|apply leftover_sublist].
    by rewrite <- (length_fmap Market.sku), Hperm.
Qed.

Lemma create_stocks_ids_rearranged_witness :
  Seller.offer_id
    <$> [Seller.StockPayload "70002" 4; Seller.StockPayload "70002" 9;
         Seller.StockPayload "5" 0; Seller.StockPayload "70002" 0]
  ≡ₚ ["70002"; "5"; "70002"; "70002"]
  ∧ length [Seller.StockPayload "70002" 4; Seller.StockPayload "70002" 9;
            Seller.StockPayload "5" 0; Seller.StockPayload "70002" 0]
    = length ["70002"; "5"; "70002"; "70002"]
  ∧ ["5"; "70002"] `sublist_of` ["70002"; "5"; "70002"; "70002"].
Proof.
  apply (proj1 (create_stocks_ids_rearranged
                  [Samples.four; Samples.restocked]
                  ["70002"; "5"; "70002"; "70002"])).
  vm_compute. reflexivity.
Defined.








Lemma matched_loop_unmatched {P : Type} (mk : string → Z → P)
    (ws : list dict) (acc : list P) (ids : list string) :
  (∀ w, w ∈ ws → key w ∉ ids) →
  matched_loop mk ws acc ids = Ok (acc, ids).
Proof.
  revert acc. induction ws as [|w ws IH]; intros acc Hnone; simpl; [done|].
  unfold contains. rewrite bool_decide_eq_false_2 by (apply Hnone; left).
  apply IH. intros v Hv. apply Hnone. by right.
Qed.


(** X8: a second call of [create_stocks] on the list object the first call
    has worked on (ids not repeated) matches nothing: it returns only zero
    payloads, for the ids the first call left, and cannot fail. *)
Theorem create_stocks_second_run (ws : list dict) (ids : list string) :
  NoDup ids →
  (∀ out ids',
     Seller.create_stocks ws ids = Ok (out, ids') →
     Seller.create_stocks ws ids'
     = Ok ((λ id, Seller.StockPayload id 0%Z) <$> ids', ids'))
  ∧
  (∀ wh clk out ids' clk',
     Market.create_stocks ws ids wh clk = (Ok (out, ids'), clk') →
     fst (Market.create_stocks ws ids' wh clk')
     = Ok ((λ id, Market.StockPayload id wh
                    [Market.Item 0 "FIT" (market_date clk')]) <$> ids', ids')).
Proof.
  intros Hnd. split.
  - intros out ids' Hrun. apply seller_create_stocks_spec in Hrun as (-> & _).
    unfold Seller.create_stocks. rewrite seller_matched_loop.
    rewrite matched_loop_unmatched.
    + simpl. by rewrite seller_missing.
    + intros w Hw. by apply leftover_consumed.
  - intros wh clk out ids' clk' Hrun.
    destruct (market_create_stocks_spec _ _ _ _ _ _ _ Hrun) as (_ & -> & _).
    unfold Market.create_stocks. simpl. fold (market_date clk').
    rewrite market_matched_loop, matched_loop_unmatched.
    + simpl. by rewrite market_missing.
    + intros w Hw. by apply leftover_consumed.
Qed.

Lemma create_stocks_second_run_witness :
  Seller.create_stocks Samples.catalogue ["99999"]
  = Ok ((λ id, Seller.StockPayload id 0%Z) <$> ["99999"], ["99999"]).
Proof.
  assert (NoDup Samples.published) as Hnd.
  { apply (bool_decide_unpack _). vm_compute. exact I. }
  apply (proj1 (create_stocks_second_run Samples.catalogue Samples.published Hnd)
           [Seller.StockPayload "69785" 100; Seller.StockPayload "70001" 0;
            Seller.StockPayload "70002" 4; Seller.StockPayload "70003" 12;
            Seller.StockPayload "99999" 0]).
  vm_compute. reflexivity.
Defined.




(** ** The batcher, continued *)

(** X10: for a positive size, [divide] yields [ceil(len(items) / size)]
    chunks, so that many requests are sent for a list. *)
Theorem divide_chunk_count (A : Type) (items : list A) (size : Z) (fuel : nat) :
  (0 < size)%Z → length items < fuel →
  ∃ chunks,
    Seller.list_upto fuel (Seller.divide items size) = Some (Ok chunks)
    ∧ Z.of_nat (length chunks)
      = ((Z.of_nat (length items) + size - 1) / size)%Z.
Proof.
  intros Hsize Hfuel.
  set (m := Z.to_nat size). assert (0 < m) as Hm by lia.
  replace size with (Z.of_nat m) by lia.
  destruct (range_len_positive (length items) m Hm) as (Hup & Hlow & Hzero).
  pose proof (divide_positive items m fuel Hm Hfuel) as Hrun.
  set (count := range_len 0 (Z.of_nat (length items)) (Z.of_nat m)) in *.
  exists (slices count m items). split; [done|]. rewrite slices_length.
  apply (Z.div_unique_pos _ _ _
           (Z.of_nat (length items) + Z.of_nat m - 1 - Z.of_nat m * Z.of_nat count));
    [|lia].
  destruct (decide (length items = 0)) as [Hnil|Hnil].
  - rewrite (Hzero Hnil) in *. lia.
  - specialize (Hlow ltac:(lia)). nia.
Qed.

Lemma divide_chunk_count_witness :
  ∃ chunks,
    Seller.list_upto 8 (Seller.divide [1; 2; 3; 4; 5; 6; 7] 3) = Some (Ok chunks)
    ∧ Z.of_nat (length chunks) = ((Z.of_nat 7 + 3 - 1) / 3)%Z.
Proof.
  apply (divide_chunk_count nat [1; 2; 3; 4; 5; 6; 7] 3 8); [reflexivity|].
  simpl. lia.
Defined.

(** X11: once [next] has raised, with [StopIteration] at the end of the
    list or with the [ValueError] of a zero size, the generator is finished:
    every later [next] raises [StopIteration]; no other exception leaves
    [next]. *)
Theorem divide_exhausted_stays_exhausted
    (A : Type) (g g' : Seller.generator A) (e : exn) :
  Seller.next g = (Raise e, g') →
  g' = Seller.Finished
  ∧ Seller.next g' = (Raise StopIteration, Seller.Finished)
  ∧ (e = StopIteration ∨ e = ValueError).
Proof.
  assert (∀ lst n it, Seller.divide_resume lst n it = (Raise e, g') →
            g' = Seller.Finished ∧ e = StopIteration) as Hresume.
  { intros lst n it. unfold Seller.divide_resume.
    destruct (ri_len it); [|done]. by intros [= <- <-]. }
  destruct g as [lst n|lst n it|]; simpl.
  - destruct (range 0 (Z.of_nat (length lst)) n) as [it|e'] eqn:Hrange.
    + intros Hnext. destruct (Hresume _ _ _ Hnext) as [-> ->].
      split; [done|]. split; [done|by left].
    + intros [= <- <-]. split; [done|]. split; [done|].
      unfold range in Hrange. destruct (n =? 0)%Z; [|done].
      injection Hrange as <-. by right.
  - intros Hnext. destruct (Hresume _ _ _ Hnext) as [-> ->].
    split; [done|]. split; [done|by left].
  - intros [= <- <-]. split; [done|]. split; [done|by left].
Qed.

Lemma divide_exhausted_stays_exhausted_witness :
  (Seller.Finished : Seller.generator nat) = Seller.Finished
  ∧ Seller.next (Seller.Finished : Seller.generator nat)
    = (Raise StopIteration, Seller.Finished)
  ∧ (ValueError = StopIteration ∨ ValueError = ValueError).
Proof.
  apply (divide_exhausted_stays_exhausted nat (Seller.divide [1; 2; 3] 0)).
  reflexivity.
Defined.

(** X12: of an empty list [divide] yields nothing, for every size but 0;
    of a non-empty list no longer than the size it yields one chunk, the
    list itself. *)
Theorem divide_small_lists (A : Type) (items : list A) (size : Z) (fuel : nat) :
  0 < fuel →
  (size ≠ 0%Z →
   Seller.list_upto fuel (Seller.divide ([] : list A) size) = Some (Ok []))
  ∧
  (0 < length items → (Z.of_nat (length items) ≤ size)%Z → 1 < fuel →
   Seller.list_upto fuel (Seller.divide items size) = Some (Ok [items])).
Proof.
  intros Hfuel. split.
  - intros Hsize. destruct fuel as [|fuel]; [lia|]. simpl. unfold range.
    assert ((size =? 0)%Z = false) as -> by by apply Z.eqb_neq.
    unfold range_len. simpl. by destruct (0 <? size)%Z.
  - intros Hlen Hsize Hfuel2.
    set (m := Z.to_nat size). assert (0 < m) as Hm by lia.
    replace size with (Z.of_nat m) by lia.
    destruct (range_len_positive (length items) m Hm) as (Hup & Hlow & _).
    specialize (Hlow Hlen).
    set (count := range_len 0 (Z.of_nat (length items)) (Z.of_nat m)) in *.
    assert (count = 1) as Hcount by nia.
    rewrite (list_upto_created _ _ _
               (RangeIter (Z.of_nat 0) (Z.of_nat m) count)).
    + rewrite Hcount, (list_upto_suspended items m 0 1) by lia.
      rewrite drop_0. cbn [slices]. rewrite take_ge; [done|lia].
    + unfold range. assert ((Z.of_nat m =? 0)%Z = false) as ->; [|done].
      apply Z.eqb_neq. lia.
Qed.

Lemma divide_small_lists_witness :
  Seller.list_upto 1 (Seller.divide ([] : list nat) (-5)) = Some (Ok [])
  ∧ Seller.list_upto 2 (Seller.divide [1; 2; 3] 100) = Some (Ok [[1; 2; 3]]).
Proof.
  assert (0 < 2) as H2 by lia.
  assert (0 < 1) as H1 by lia.
  split.
  - apply (proj1 (divide_small_lists nat [] (-5) 1 H1)). discriminate.
  - apply (proj2 (divide_small_lists nat [1; 2; 3] 100 2 H2));
      [simpl; lia|simpl; lia|lia].
Defined.

(** ** Listing the offers of the seller marketplace *)

Section SellerListing.
Context (api : Seller.marketplace).
Implicit Types (log : list Seller.request) (pages : list Seller.listing).

Lemma seller_listing_requests_cons lid page pages :
  seller_listing_requests lid (page :: pages)
  = Seller.ProductList lid
      :: seller_listing_requests (Seller.last_id page) pages.
Proof. done. Qed.

Lemma get_offer_ids_loop_done fuel lid acc log out log' :
  Seller.get_offer_ids_loop api fuel lid acc log = Some (Done out, log') →
  ∃ pages,
    seller_paging api log lid (length acc) pages
    ∧ out = acc ++ concat (Seller.items <$> pages)
    ∧ log' = log ++ seller_listing_requests lid pages.
Proof.
  revert lid acc log. induction fuel as [|fuel IH]; intros lid acc log; [done|].
  simpl. unfold Net.bind, Seller.get_product_list.
  destruct (Seller.product_list_answer api log lid) as [page|f] eqn:Hpage; [|done].
  destruct (Z.eqb_spec (Seller.total page)
              (Z.of_nat (length (acc ++ Seller.items page)))) as [Htot|Htot].
  - intros [= <- <-]. exists [page]. rewrite length_app in Htot.
    split; [done|]. split; [|done]. simpl. by rewrite app_nil_r.
  - intros Hrun. apply IH in Hrun as (pages & Hpages & -> & ->).
    rewrite length_app in Htot, Hpages.
    exists (page :: pages). split; [|split].
    + destruct pages as [|page' pages]; [done|]. done.
    + simpl. by rewrite <- app_assoc.
    + rewrite seller_listing_requests_cons, <- app_assoc. done.
Qed.

Lemma get_offer_ids_loop_paging fuel lid acc log pages :
  seller_paging api log lid (length acc) pages →
  length pages ≤ fuel →
  Seller.get_offer_ids_loop api fuel lid acc log
  = Some (Done (acc ++ concat (Seller.items <$> pages)),
          log ++ seller_listing_requests lid pages).
Proof.
  revert fuel lid acc log.
  induction pages as [|page pages IH]; intros fuel lid acc log Hpages Hfuel; [done|].
  destruct fuel as [|fuel]; [simpl in Hfuel; lia|].
  destruct Hpages as [Hpage Hrest].
  simpl Seller.get_offer_ids_loop. unfold Net.bind, Seller.get_product_list.
  rewrite Hpage, length_app.
  destruct pages as [|page' pages].
  - rewrite Hrest, Z.eqb_refl. simpl. by rewrite app_nil_r.
  - destruct Hrest as [Htot Hrest].
    apply Z.eqb_neq in Htot. rewrite Htot.
    rewrite <- length_app in Hrest.
    rewrite (IH fuel _ _ _ Hrest) by (simpl in *; lia).
    rewrite seller_listing_requests_cons.
    f_equal. f_equal; [|by rewrite <- app_assoc].
    simpl. by rewrite <- app_assoc.
Qed.

Lemma get_offer_ids_loop_failed fuel lid acc log f log' :
  Seller.get_offer_ids_loop api fuel lid acc log = Some (Failed f, log') →
  ∃ history lid',
    log' = history ++ [Seller.ProductList lid']
    ∧ log `prefix_of` history
    ∧ Seller.product_list_answer api history lid' = Failed f.
Proof.
  revert lid acc log. induction fuel as [|fuel IH]; intros lid acc log; [done|].
  simpl. unfold Net.bind, Seller.get_product_list.
  destruct (Seller.product_list_answer api log lid) as [page|f'] eqn:Hpage.
  - destruct (Seller.total page =? _)%Z; [done|].
    intros Hrun. apply IH in Hrun as (history & lid' & -> & Hpre & Hans).
    exists history, lid'. split; [done|]. split; [|done].
    etrans; [|exact Hpre]. by apply prefix_app_r.
  - intros [= <- <-]. by exists log, lid.
Qed.

Lemma seller_paging_total log lid got pages page :
  seller_paging api log lid got pages →
  last pages = Some page →
  Seller.total page
  = Z.of_nat (got + length (concat (Seller.items <$> pages))).
Proof.
  revert log lid got.
  induction pages as [|p pages IH]; intros log lid got Hpages Hlast; [done|].
  destruct Hpages as [_ Hrest]. destruct pages as [|p' pages].
  - injection Hlast as <-. simpl. by rewrite app_nil_r.
  - destruct Hrest as [_ Hrest]. rewrite (IH _ _ _ Hrest Hlast).
    rewrite fmap_cons. simpl concat. rewrite (length_app (Seller.items p)).
    by rewrite Nat.add_assoc.
Qed.

End SellerListing.

(** X13: [get_offer_ids] of the seller marketplace returns exactly when the
    marketplace serves a run of pages that ends: the first request carries
    an empty [last_id], each next one the [last_id] of the page before, and
    the run stops at the first page whose [total] is the number of products
    received.  It then returns the offer ids of all products of these
    pages, in order, as many as that total, and has sent nothing but these
    listing requests. *)
Theorem seller_get_offer_ids_pages
    (api : Seller.marketplace) (log : list Seller.request) :
  (∀ fuel ids log',
     Seller.get_offer_ids api fuel log = Some (Done ids, log') →
     ∃ pages,
       seller_paging api log "" 0 pages
       ∧ ids = Seller.product_offer_id <$> concat (Seller.items <$> pages)
       ∧ log' = log ++ seller_listing_requests "" pages
       ∧ (∀ page, last pages = Some page →
            Seller.total page = Z.of_nat (length ids)))
  ∧
  (∀ pages fuel,
     seller_paging api log "" 0 pages → length pages ≤ fuel →
     Seller.get_offer_ids api fuel log
     = Some (Done (Seller.product_offer_id <$> concat (Seller.items <$> pages)),
             log ++ seller_listing_requests "" pages)).
Proof.
  split.
  - intros fuel ids log'. unfold Seller.get_offer_ids, Net.bind.
    destruct (Seller.get_offer_ids_loop api fuel "" [] log)
      as [[[out|f] log1]|] eqn:Hloop; [|done..].
    intros [= <- <-].
    apply get_offer_ids_loop_done in Hloop as (pages & Hpages & -> & ->).
    exists pages. split; [done|]. split; [done|]. split; [done|].
    intros page Hlast. rewrite length_fmap.
    by rewrite (seller_paging_total api _ _ _ _ _ Hpages Hlast).
  - intros pages fuel Hpages Hfuel. unfold Seller.get_offer_ids, Net.bind.
    by rewrite (get_offer_ids_loop_paging api fuel "" [] log pages).
Qed.

Lemma seller_get_offer_ids_pages_witness :
  Seller.get_offer_ids Samples.shop 5 []
  = Some (Done (Seller.product_offer_id
                  <$> concat (Seller.items
                                <$> [Samples.first_page; Samples.second_page])),
          [] ++ seller_listing_requests ""
                  [Samples.first_page; Samples.second_page]).
Proof.
  apply (proj2 (seller_get_offer_ids_pages Samples.shop [])
           [Samples.first_page; Samples.second_page] 5).
  - simpl. split; [reflexivity|]. split; [discriminate|].
    split; reflexivity.
  - simpl. lia.
Defined.

(** ** Sending the batches *)

Section Pushing.
Context {R A : Type} (answer : list R → A → outcome unit) (mk : A → R).
Context (send : A → io R unit).
Hypothesis send_answer :
  ∀ x log, send x log = Some (answer log x, log ++ [mk x]).

(** The loop over the batches stops at the first one the marketplace
    refuses; what was sent before stays sent. *)
Lemma for_each_send (xs : list A) (log : list R) :
  (for_each send xs log = Some (Done tt, log ++ (mk <$> xs))
   ∧ ∀ k x, xs !! k = Some x →
       answer (log ++ (mk <$> take k xs)) x = Done tt)
  ∨
  (∃ k x f,
     xs !! k = Some x
     ∧ for_each send xs log = Some (Failed f, log ++ (mk <$> take (S k) xs))
     ∧ answer (log ++ (mk <$> take k xs)) x = Failed f).
Proof.
  revert log. induction xs as [|x xs IH]; intros log.
  { left. split; [by rewrite app_nil_r|]. by intros k x Hk. }
  cbn [for_each]. unfold Net.bind. rewrite send_answer.
  destruct (answer log x) as [[]|f] eqn:Hx.
  - destruct (IH (log ++ [mk x])) as [[Hrun Hall]|(k & y & f & Hk & Hrun & Hans)].
    + left. rewrite Hrun. split; [by rewrite <- app_assoc|].
      intros [|k] y Hk.
      * injection Hk as <-. by rewrite take_0, app_nil_r.
      * specialize (Hall k y Hk). by rewrite <- app_assoc in Hall.
    + right. exists (S k), y, f. rewrite Hrun.
      rewrite <- !app_assoc in *. done.
  - right. exists 0, x, f. rewrite take_0. cbn. rewrite app_nil_r. done.
Qed.

End Pushing.

Lemma slices_take {A : Type} (count m k : nat) (lst : list A) :
  length lst ≤ count * m →
  concat (take k (slices count m lst)) = take (k * m) lst.
Proof.
  revert count lst. induction k as [|k IH]; intros count lst Hlen; [done|].
  destruct count as [|count]; simpl in *.
  { destruct lst; [by rewrite take_nil|simpl in Hlen; lia]. }
  rewrite IH by (rewrite length_drop; lia). apply take_take_drop.
Qed.

Lemma batches_positive {A : Type} (lst : list A) (n : Z) :
  (0 < n)%Z →
  ∃ chunks,
    Seller.batches lst n = Some (Ok chunks)
    ∧ concat chunks = lst
    ∧ Forall (λ chunk, 0 < length chunk ∧ (Z.of_nat (length chunk) ≤ n)%Z) chunks
    ∧ ∀ k, concat (take k chunks) = take (k * Z.to_nat n) lst.
Proof.
  intros Hn. set (m := Z.to_nat n). assert (0 < m) as Hm by lia.
  replace n with (Z.of_nat m) by lia.
  destruct (range_len_positive (length lst) m Hm) as (Hup & Hlow & Hzero).
  unfold Seller.batches. rewrite divide_positive by lia.
  set (count := range_len 0 (Z.of_nat (length lst)) (Z.of_nat m)) in *.
  exists (slices count m lst). split; [done|].
  split; [by apply slices_concat|]. split.
  - apply Forall_lookup. intros j chunk Hj.
    destruct (decide (length lst = 0)) as [Hnil|Hnil].
    + apply lookup_lt_Some in Hj. rewrite slices_length, (Hzero Hnil) in Hj. lia.
    + destruct (slices_chunk_length lst count m j chunk Hm
                  ltac:(apply Hlow; lia) Hj) as [Hlen _]. lia.
  - intros k. by apply slices_take.
Qed.

Lemma batches_empty {A : Type} (n : Z) :
  (0 < n)%Z → Seller.batches ([] : list A) n = Some (Ok []).
Proof.
  intros Hn. destruct (batches_positive ([] : list A) n Hn)
    as (chunks & -> & Hcat & Hall & _).
  destruct chunks as [|c chunks]; [done|].
  apply Forall_cons in Hall as [[Hc _] _]. destruct c; [simpl in Hc; lia|done].
Qed.

Lemma seller_update_stocks_answer (api : Seller.marketplace) x log :
  Seller.update_stocks api x log
  = Some (Seller.import_stocks_answer api log x, log ++ [Seller.ImportStocks x]).
Proof. done. Qed.

Lemma seller_update_price_answer (api : Seller.marketplace) x log :
  Seller.update_price api x log
  = Some (Seller.import_prices_answer api log x, log ++ [Seller.ImportPrices x]).
Proof. done. Qed.

(** The loop over [list(divide(xs, n))], for either kind of payload. *)
Lemma push_batches {R A : Type} (answer : list R → list A → outcome unit)
    (mk : list A → R) (send : list A → io R unit) (xs : list A) (n : Z)
    (log : list R) :
  (∀ x log, send x log = Some (answer log x, log ++ [mk x])) →
  (0 < n)%Z →
  ∃ chunks,
    Seller.batches xs n = Some (Ok chunks)
    ∧ concat chunks = xs
    ∧ Forall (λ chunk, 0 < length chunk ∧ (Z.of_nat (length chunk) ≤ n)%Z) chunks
    ∧ (for_each send chunks log = Some (Done tt, log ++ (mk <$> chunks))
       ∨ ∃ k chunk f,
           chunks !! k = Some chunk
           ∧ for_each send chunks log
             = Some (Failed f, log ++ (mk <$> take (S k) chunks))
           ∧ answer (log ++ (mk <$> take k chunks)) chunk = Failed f
           ∧ concat (take k chunks) = take (k * Z.to_nat n) xs).
Proof.
  intros Hsend Hn.
  destruct (batches_positive xs n Hn) as (chunks & Hb & Hcat & Hall & Htake).
  exists chunks. split; [done|]. split; [done|]. split; [done|].
  destruct (for_each_send answer mk send Hsend chunks log)
    as [[Hrun _]|(k & chunk & f & Hk & Hrun & Hans)]; [by left|].
  right. exists k, chunk, f. by rewrite Htake.
Qed.

(** X14: for a positive batch size the loops of [upload_stocks],
    [upload_prices] and [main] send the consecutive chunks of the list, none
    empty and none above the size, until the marketplace refuses one: the
    loop then ends with that failure, the [k] batches before it (the first
    [k * size] payloads) stay imported and no later batch is sent. *)
Theorem seller_push_in_batches (api : Seller.marketplace)
    (stocks : list Seller.stock_payload) (prices : list Seller.price_payload)
    (n : Z) (log : list Seller.request) :
  (0 < n)%Z →
  (∃ chunks,
     concat chunks = stocks
     ∧ Forall (λ chunk, 0 < length chunk ∧ (Z.of_nat (length chunk) ≤ n)%Z) chunks
     ∧ (Seller.push_stocks api stocks n log
        = Some (Done tt, log ++ (Seller.ImportStocks <$> chunks))
        ∨ ∃ k chunk f,
            chunks !! k = Some chunk
            ∧ Seller.push_stocks api stocks n log
              = Some (Failed f,
                      log ++ (Seller.ImportStocks <$> take (S k) chunks))
            ∧ Seller.import_stocks_answer api
                (log ++ (Seller.ImportStocks <$> take k chunks)) chunk
              = Failed f
            ∧ concat (take k chunks) = take (k * Z.to_nat n) stocks))
  ∧
  (∃ chunks,
     concat chunks = prices
     ∧ Forall (λ chunk, 0 < length chunk ∧ (Z.of_nat (length chunk) ≤ n)%Z) chunks
     ∧ (Seller.push_prices api prices n log
        = Some (Done tt, log ++ (Seller.ImportPrices <$> chunks))
        ∨ ∃ k chunk f,
            chunks !! k = Some chunk
            ∧ Seller.push_prices api prices n log
              = Some (Failed f,
                      log ++ (Seller.ImportPrices <$> take (S k) chunks))
            ∧ Seller.import_prices_answer api
                (log ++ (Seller.ImportPrices <$> take k chunks)) chunk
              = Failed f
            ∧ concat (take k chunks) = take (k * Z.to_nat n) prices)).
Proof.
  intros Hn. split.
  - destruct (push_batches (Seller.import_stocks_answer api) Seller.ImportStocks
                (Seller.update_stocks api) stocks n log
                (seller_update_stocks_answer api) Hn)
      as (chunks & Hb & Hcat & Hall & Hrun).
    exists chunks. split; [done|]. split; [done|].
    unfold Seller.push_stocks. rewrite Hb. exact Hrun.
  - destruct (push_batches (Seller.import_prices_answer api) Seller.ImportPrices
                (Seller.update_price api) prices n log
                (seller_update_price_answer api) Hn)
      as (chunks & Hb & Hcat & Hall & Hrun).
    exists chunks. split; [done|]. split; [done|].
    unfold Seller.push_prices. rewrite Hb. exact Hrun.
Qed.

Lemma get_offer_ids_loop_requests (api : Seller.marketplace)
    fuel lid acc log r log' :
  Seller.get_offer_ids_loop api fuel lid acc log = Some (r, log') →
  ∃ lids, log' = log ++ (Seller.ProductList <$> lids).
Proof.
  revert lid acc log. induction fuel as [|fuel IH]; intros lid acc log; [done|].
  simpl. unfold Net.bind, Seller.get_product_list.
  destruct (Seller.product_list_answer api log lid) as [page|f].
  - destruct (Seller.total page =? _)%Z.
    + intros [= <- <-]. by exists [lid].
    + intros Hrun. apply IH in Hrun as (lids & ->).
      exists (lid :: lids). by rewrite <- app_assoc.
  - intros [= <- <-]. by exists [lid].
Qed.

Lemma get_offer_ids_requests (api : Seller.marketplace) fuel log r log' :
  Seller.get_offer_ids api fuel log = Some (r, log') →
  ∃ lids, log' = log ++ (Seller.ProductList <$> lids).
Proof.
  unfold Seller.get_offer_ids, Net.bind.
  destruct (Seller.get_offer_ids_loop api fuel "" [] log)
    as [[[out|f] log1]|] eqn:Hloop; [| |done].
  - intros [= <- <-]. by apply get_offer_ids_loop_requests in Hloop.
  - intros [= <- <-]. by apply get_offer_ids_loop_requests in Hloop.
Qed.

Lemma create_prices_filter ws ids prices :
  Seller.create_prices ws ids = Ok prices →
  prices = seller_price <$> filter (λ w, key w ∈ ids) ws.
Proof.
  intros Hrun.
  destruct (decide (Forall (λ w, key w ∈ ids → string_price w = true) ws))
    as [Hok|Hbad].
  - unfold Seller.create_prices in Hrun.
    rewrite seller_prices_loop_ok in Hrun by done. by injection Hrun as <-.
  - apply not_Forall_Exists in Hbad; [|apply _].
    unfold Seller.create_prices in Hrun.
    rewrite seller_prices_loop_fails in Hrun; [done|].
    eapply Exists_impl; [exact Hbad|]. intros w Hw. simpl in Hw.
    destruct (decide (key w ∈ ids)) as [Hin|Hin]; [|by destruct Hw].
    split; [done|]. destruct (string_price w); [|done]. by destruct Hw.
Qed.

(** X15: when the body of [upload_stocks] returns, the marketplace has
    received, after the listing requests, the whole stock list in batches of
    1 to 100 payloads; the first component of the result is the payloads
    with a count other than 0, each of them the payload of a remnant with
    its resolved quantity (no zeroed stale offer is among them). *)
Theorem seller_upload_stocks_result (api : Seller.marketplace) (fuel : nat)
    (ws : list dict) (log log' : list Seller.request)
    (not_empty stocks : list Seller.stock_payload) :
  Seller.upload_stocks api fuel ws log = Some (Done (not_empty, stocks), log') →
  ∃ ids log1 ids' chunks,
    Seller.get_offer_ids api fuel log = Some (Done ids, log1)
    ∧ Seller.create_stocks ws ids = Ok (stocks, ids')
    ∧ log' = log1 ++ (Seller.ImportStocks <$> chunks)
    ∧ concat chunks = stocks
    ∧ Forall (λ chunk, 0 < length chunk ≤ 100) chunks
    ∧ not_empty = filter (λ p, Seller.stock p ≠ 0%Z) stocks
    ∧ ∀ p, p ∈ not_empty →
        ∃ w, w ∈ ws ∧ Seller.offer_id p = key w
             ∧ Seller.resolve_stock w = Ok (Seller.stock p).
Proof.
  unfold Seller.upload_stocks, Net.bind.
  destruct (Seller.get_offer_ids api fuel log) as [[[ids|f] log1]|]; [|done..].
  destruct (Seller.create_stocks ws ids) as [[out ids']|e] eqn:Hstocks; [|done].
  simpl.
  destruct (push_batches (Seller.import_stocks_answer api) Seller.ImportStocks
              (Seller.update_stocks api) out 100 log1
              (seller_update_stocks_answer api) ltac:(done))
    as (chunks & Hb & Hcat & Hall & [Hrun|(k & c & f & _ & Hrun & _)]);
    unfold Seller.push_stocks; rewrite Hb; simpl; unfold Net.bind, Net.ret;
    rewrite Hrun; [|done].
  intros [= <- <- <-].
  exists ids, log1, ids', chunks. split; [done|]. split; [done|].
  split; [done|]. split; [done|]. split.
  { eapply Forall_impl; [exact Hall|]. intros c [H1 H2]. simpl. lia. }
  split; [done|].
  intros p Hp. apply list_elem_of_filter in Hp as [Hnz Hp].
  apply seller_create_stocks_spec in Hstocks as (_ & ps & Hps & ->).
  apply elem_of_app in Hp as [Hp|Hp].
  - destruct (Forall2_elem_r _ _ _ _ Hps Hp) as (w & Hw & n & Hn & ->).
    exists w. split; [|done].
    eapply elem_of_sublist; [exact Hw|apply matched_sublist].
  - apply list_elem_of_fmap in Hp as (i & -> & _). by destruct Hnz.
Qed.

(** X16: when the body of [upload_prices] returns, the prices are those of
    the remnants whose code the marketplace lists, in the order of the
    remnants, and the marketplace has received them after the listing
    requests in batches of 1 to 1000 payloads. *)
Theorem seller_upload_prices_result (api : Seller.marketplace) (fuel : nat)
    (ws : list dict) (log log' : list Seller.request)
    (prices : list Seller.price_payload) :
  Seller.upload_prices api fuel ws log = Some (Done prices, log') →
  ∃ ids log1 chunks,
    Seller.get_offer_ids api fuel log = Some (Done ids, log1)
    ∧ prices = seller_price <$> filter (λ w, key w ∈ ids) ws
    ∧ log' = log1 ++ (Seller.ImportPrices <$> chunks)
    ∧ concat chunks = prices
    ∧ Forall (λ chunk, 0 < length chunk ≤ 1000) chunks.
Proof.
  unfold Seller.upload_prices, Net.bind.
  destruct (Seller.get_offer_ids api fuel log) as [[[ids|f] log1]|]; [|done..].
  destruct (Seller.create_prices ws ids) as [out|e] eqn:Hprices; [|done].
  simpl.
  destruct (push_batches (Seller.import_prices_answer api) Seller.ImportPrices
              (Seller.update_price api) out 1000 log1
              (seller_update_price_answer api) ltac:(done))
    as (chunks & Hb & Hcat & Hall & [Hrun|(k & c & f & _ & Hrun & _)]);
    unfold Seller.push_prices; rewrite Hb; simpl; unfold Net.bind, Net.ret;
    rewrite Hrun; [|done].
  intros [= <- <-].
  exists ids, log1, chunks. split; [done|].
  split; [by apply create_prices_filter|]. split; [done|]. split; [done|].
  eapply Forall_impl; [exact Hall|]. intros c [H1 H2]. simpl. lia.
Qed.

(** X17: when the marketplace lists no offer id twice, [main] of
    [seller.py] never sends a price: [create_prices] reads the list that
    [create_stocks] has emptied of every matched id, so the requests of a
    run are listing requests followed by stock imports, and at most one
    line is printed. *)
Theorem seller_main_sends_no_price (api : Seller.marketplace) (fuel : nat)
    (download : outcome (list dict))
    (lines : list printed) (log : list Seller.request) :
  (∀ ids log1,
     Seller.get_offer_ids api fuel [] = Some (Done ids, log1) → NoDup ids) →
  Seller.main api fuel download = Some (lines, log) →
  Forall (λ r, is_import_prices r = false) log
  ∧ (∃ lids chunks,
       log = (Seller.ProductList <$> lids) ++ (Seller.ImportStocks <$> chunks))
  ∧ length lines ≤ 1.
Proof.
  intros Hnd Hmain.
  assert (∃ lids chunks,
            log = (Seller.ProductList <$> lids) ++ (Seller.ImportStocks <$> chunks)
            ∧ length lines ≤ 1) as (lids & chunks & -> & Hlines).
  { revert Hmain. unfold Seller.main, Seller.main_try, Net.bind.
    destruct (Seller.get_offer_ids api fuel []) as [[[ids|f] log1]|] eqn:Hids;
      [| |done].
    2:{ intros [= <- <-].
        apply get_offer_ids_requests in Hids as (lids & ->).
        exists lids, []. simpl. rewrite app_nil_r. split; [done|lia]. }
    pose proof (Hnd ids log1 eq_refl) as Hids_nd.
    apply get_offer_ids_requests in Hids as (lids & ->). simpl.
    destruct download as [ws|f]; simpl.
    2:{ intros [= <- <-]. exists lids, []. simpl. rewrite app_nil_r.
        split; [done|lia]. }
    destruct (Seller.create_stocks ws ids) as [[stocks ids']|e] eqn:Hstocks; simpl.
    2:{ intros [= <- <-]. exists lids, []. simpl. rewrite app_nil_r.
        split; [done|lia]. }
    destruct (push_batches (Seller.import_stocks_answer api) Seller.ImportStocks
                (Seller.update_stocks api) stocks 100 (Seller.ProductList <$> lids)
                (seller_update_stocks_answer api) ltac:(done))
      as (cs & Hb & _ & _ & [Hrun|(k & c & f & _ & Hrun & _)]);
      unfold Seller.push_stocks; rewrite Hb; simpl; unfold Net.bind, Net.ret;
      rewrite Hrun.
    2:{ intros [= <- <-]. exists lids, (take (S k) cs). split; [done|simpl; lia]. }
    assert (Seller.create_prices ws ids' = Ok []) as ->.
    { apply seller_create_stocks_spec in Hstocks as (-> & _).
      apply create_prices_loop_unmatched. intros w Hw.
      by apply leftover_consumed. }
    unfold Net.lift, Net.ret, Seller.push_prices.
    rewrite batches_empty by done. simpl.
    intros [= <- <-]. exists lids, cs. split; [done|simpl; lia]. }
  split; [|split; [by exists lids, chunks|done]].
  apply Forall_app. split; apply Forall_fmap, Forall_forall; by intros.
Qed.

Lemma seller_push_in_batches_witness :
  ∃ chunks,
    concat chunks
    = [Seller.StockPayload "1" 1; Seller.StockPayload "2" 2;
       Seller.StockPayload "3" 3; Seller.StockPayload "4" 4;
       Seller.StockPayload "5" 5]
    ∧ Forall (λ chunk, 0 < length chunk ∧ (Z.of_nat (length chunk) ≤ 2)%Z) chunks
    ∧ (Seller.push_stocks Samples.busy_shop
         [Seller.StockPayload "1" 1; Seller.StockPayload "2" 2;
          Seller.StockPayload "3" 3; Seller.StockPayload "4" 4;
          Seller.StockPayload "5" 5] 2 []
       = Some (Done tt, [] ++ (Seller.ImportStocks <$> chunks))
       ∨ ∃ k chunk f,
           chunks !! k = Some chunk
           ∧ Seller.push_stocks Samples.busy_shop
               [Seller.StockPayload "1" 1; Seller.StockPayload "2" 2;
                Seller.StockPayload "3" 3; Seller.StockPayload "4" 4;
                Seller.StockPayload "5" 5] 2 []
             = Some (Failed f, [] ++ (Seller.ImportStocks <$> take (S k) chunks))
           ∧ Seller.import_stocks_answer Samples.busy_shop
               ([] ++ (Seller.ImportStocks <$> take k chunks)) chunk
             = Failed f
           ∧ concat (take k chunks)
             = take (k * Z.to_nat 2)
                 [Seller.StockPayload "1" 1; Seller.StockPayload "2" 2;
                  Seller.StockPayload "3" 3; Seller.StockPayload "4" 4;
                  Seller.StockPayload "5" 5]).
Proof.
  apply (proj1 (seller_push_in_batches Samples.busy_shop
                  [Seller.StockPayload "1" 1; Seller.StockPayload "2" 2;
                   Seller.StockPayload "3" 3; Seller.StockPayload "4" 4;
                   Seller.StockPayload "5" 5] [] 2 [] ltac:(reflexivity))).
Defined.

Lemma seller_upload_stocks_result_witness :
  ∃ ids log1 ids' chunks,
    Seller.get_offer_ids Samples.shop 5 [] = Some (Done ids, log1)
    ∧ Seller.create_stocks Samples.catalogue ids
      = Ok ([Seller.StockPayload "69785" 100; Seller.StockPayload "70001" 0;
             Seller.StockPayload "99999" 0], ids')
    ∧ [Seller.ProductList ""; Seller.ProductList "bnVsbA==";
       Seller.ImportStocks
         [Seller.StockPayload "69785" 100; Seller.StockPayload "70001" 0;
          Seller.StockPayload "99999" 0]]
      = log1 ++ (Seller.ImportStocks <$> chunks)
    ∧ concat chunks
      = [Seller.StockPayload "69785" 100; Seller.StockPayload "70001" 0;
         Seller.StockPayload "99999" 0]
    ∧ Forall (λ chunk, 0 < length chunk ≤ 100) chunks
    ∧ [Seller.StockPayload "69785" 100]
      = filter (λ p, Seller.stock p ≠ 0%Z)
          [Seller.StockPayload "69785" 100; Seller.StockPayload "70001" 0;
           Seller.StockPayload "99999" 0]
    ∧ ∀ p, p ∈ [Seller.StockPayload "69785" 100] →
        ∃ w, w ∈ Samples.catalogue ∧ Seller.offer_id p = key w
             ∧ Seller.resolve_stock w = Ok (Seller.stock p).
Proof.
  apply (seller_upload_stocks_result Samples.shop 5 Samples.catalogue []).
  vm_compute. reflexivity.
Defined.

Lemma seller_upload_prices_result_witness :
  ∃ ids log1 chunks,
    Seller.get_offer_ids Samples.shop 5 [] = Some (Done ids, log1)
    ∧ [Seller.PricePayload "UNKNOWN" "RUB" "69785" "0" "5990";
       Seller.PricePayload "UNKNOWN" "RUB" "70001" "0" "12490"]
      = seller_price <$> filter (λ w, key w ∈ ids) Samples.catalogue
    ∧ [Seller.ProductList ""; Seller.ProductList "bnVsbA==";
       Seller.ImportPrices
         [Seller.PricePayload "UNKNOWN" "RUB" "69785" "0" "5990";
          Seller.PricePayload "UNKNOWN" "RUB" "70001" "0" "12490"]]
      = log1 ++ (Seller.ImportPrices <$> chunks)
    ∧ concat chunks
      = [Seller.PricePayload "UNKNOWN" "RUB" "69785" "0" "5990";
         Seller.PricePayload "UNKNOWN" "RUB" "70001" "0" "12490"]
    ∧ Forall (λ chunk, 0 < length chunk ≤ 1000) chunks.
Proof.
  apply (seller_upload_prices_result Samples.shop 5 Samples.catalogue []).
  vm_compute. reflexivity.
Defined.

Lemma seller_main_sends_no_price_witness :
  Forall (λ r, is_import_prices r = false)
    [Seller.ProductList ""; Seller.ProductList "bnVsbA==";
     Seller.ImportStocks
       [Seller.StockPayload "69785" 100; Seller.StockPayload "70001" 0;
        Seller.StockPayload "99999" 0]]
  ∧ (∃ lids chunks,
       [Seller.ProductList ""; Seller.ProductList "bnVsbA==";
        Seller.ImportStocks
          [Seller.StockPayload "69785" 100; Seller.StockPayload "70001" 0;
           Seller.StockPayload "99999" 0]]
       = (Seller.ProductList <$> lids) ++ (Seller.ImportStocks <$> chunks))
  ∧ length ([] : list printed) ≤ 1.
Proof.
  apply (seller_main_sends_no_price Samples.shop 5 (Done Samples.catalogue)).
  - intros ids log1 Hids. vm_compute in Hids. injection Hids as <- <-.
    apply (bool_decide_unpack _). vm_compute. exact I.
  - vm_compute. reflexivity.
Defined.

(** ** Listing the offers of the partner marketplace *)

Section MarketListing.
Context (api : Market.marketplace) (campaign : string).
Implicit Types (log : list Market.request) (pages : list Market.mapping_page).

Lemma market_listing_requests_cons tok page pages :
  market_listing_requests campaign tok (page :: pages)
  = Market.OfferMappingEntries campaign tok
      :: market_listing_requests campaign (token_of page) pages.
Proof. done. Qed.

Lemma market_loop_done fuel tok acc log out log' :
  Market.get_offer_ids_loop api fuel campaign tok acc log = Some (Done out, log') →
  ∃ pages,
    market_paging api log campaign tok pages
    ∧ out = acc ++ concat (Market.offerMappingEntries <$> pages)
    ∧ log' = log ++ market_listing_requests campaign tok pages.
Proof.
  revert tok acc log. induction fuel as [|fuel IH]; intros tok acc log; [done|].
  simpl. unfold Net.bind, Market.get_product_list.
  destruct (Market.mapping_answer api log campaign tok) as [page|f] eqn:Hpage; [|done].
  destruct (Market.nextPageToken page) as [[|c t]|] eqn:Htok.
  - intros [= <- <-]. exists [page]. split; [|split; [|done]].
    + split; [done|]. unfold token_of. by rewrite Htok.
    + simpl. by rewrite app_nil_r.
  - intros Hrun. apply IH in Hrun as (pages & Hpages & -> & ->).
    assert (token_of page = String c t) as Htoken.
    { unfold token_of. by rewrite Htok. }
    exists (page :: pages). split; [|split].
    + split; [done|]. destruct pages as [|page' pages]; [done|].
      rewrite Htoken. done.
    + simpl. by rewrite <- app_assoc.
    + rewrite market_listing_requests_cons, Htoken, <- app_assoc. done.
  - intros [= <- <-]. exists [page]. split; [|split; [|done]].
    + split; [done|]. unfold token_of. by rewrite Htok.
    + simpl. by rewrite app_nil_r.
Qed.

Lemma market_loop_paging fuel tok acc log pages :
  market_paging api log campaign tok pages →
  length pages ≤ fuel →
  Market.get_offer_ids_loop api fuel campaign tok acc log
  = Some (Done (acc ++ concat (Market.offerMappingEntries <$> pages)),
          log ++ market_listing_requests campaign tok pages).
Proof.
  revert fuel tok acc log.
  induction pages as [|page pages IH]; intros fuel tok acc log Hpages Hfuel; [done|].
  destruct fuel as [|fuel]; [simpl in Hfuel; lia|].
  destruct Hpages as [Hpage Hrest].
  simpl Market.get_offer_ids_loop. unfold Net.bind, Market.get_product_list.
  rewrite Hpage.
  destruct pages as [|page' pages].
  - unfold token_of in Hrest.
    destruct (Market.nextPageToken page) as [[|c t]|]; [|done|];
      simpl; by rewrite app_nil_r.
  - destruct Hrest as [Htok Hrest]. unfold token_of in Htok, Hrest.
    rewrite market_listing_requests_cons. unfold token_of at 1.
    destruct (Market.nextPageToken page) as [[|c t]|]; [done| |done].
    rewrite (IH fuel _ _ _ Hrest) by (simpl in *; lia).
    f_equal. f_equal; [|by rewrite <- app_assoc].
    simpl. by rewrite <- app_assoc.
Qed.



End MarketListing.

(** X18: [get_offer_ids] of the partner marketplace returns exactly when
    the marketplace serves a run of pages that ends: the first request
    carries an empty page token, each next one the token of the page
    before, and the run stops at the first page whose token is absent or
    empty.  It then returns the [shopSku] of all entries of these pages, in
    order, and has sent nothing but these listing requests. *)
Theorem market_get_offer_ids_pages
    (api : Market.marketplace) (campaign : string) (log : list Market.request) :
  (∀ fuel ids log',
     Market.get_offer_ids api fuel campaign log = Some (Done ids, log') →
     ∃ pages,
       market_paging api log campaign "" pages
       ∧ ids = Market.shopSku <$> concat (Market.offerMappingEntries <$> pages)
       ∧ log' = log ++ market_listing_requests campaign "" pages)
  ∧
  (∀ pages fuel,
     market_paging api log campaign "" pages → length pages ≤ fuel →
     Market.get_offer_ids api fuel campaign log
     = Some (Done (Market.shopSku
                     <$> concat (Market.offerMappingEntries <$> pages)),
             log ++ market_listing_requests campaign "" pages)).
Proof.
  split.
  - intros fuel ids log'. unfold Market.get_offer_ids, Net.bind.
    destruct (Market.get_offer_ids_loop api fuel campaign "" [] log)
      as [[[out|f] log1]|] eqn:Hloop; [|done..].
    intros [= <- <-].
    apply market_loop_done in Hloop as (pages & Hpages & -> & ->).
    by exists pages.
  - intros pages fuel Hpages Hfuel. unfold Market.get_offer_ids, Net.bind.
    by rewrite (market_loop_paging api campaign fuel "" [] log pages).
Qed.

(** ** The run of the partner marketplace *)

Lemma market_update_stocks_answer (api : Market.marketplace) campaign x log :
  Market.update_stocks api campaign x log
  = Some (Market.stocks_answer api log campaign x,
          log ++ [Market.PutStocks campaign x]).
Proof. done. Qed.



Lemma market_update_price_answer (api : Market.marketplace) campaign x log :
  Market.update_price api campaign x log
  = Some (Market.prices_answer api log campaign x,
          log ++ [Market.PostPrices campaign x]).
Proof. done. Qed.

Lemma market_create_prices_filter ws ids prices :
  Market.create_prices ws ids = Ok prices →
  prices = market_price <$> filter (λ w, key w ∈ ids) ws
  ∧ Forall (λ w, key w ∈ ids → priced w = true) ws.
Proof.
  intros Hrun.
  destruct (decide (Forall (λ w, key w ∈ ids → priced w = true) ws))
    as [Hok|Hbad].
  - split; [|done]. unfold Market.create_prices in Hrun.
    rewrite market_prices_loop_ok in Hrun by done. by injection Hrun as <-.
  - apply not_Forall_Exists in Hbad; [|apply _].
    unfold Market.create_prices in Hrun.
    destruct (market_prices_loop_fails ws [] ids) as (e & He & _); [|congruence].
    eapply Exists_impl; [exact Hbad|]. intros w Hw. simpl in Hw.
    destruct (decide (key w ∈ ids)) as [Hin|Hin]; [|by destruct Hw].
    split; [done|]. destruct (priced w); [|done]. by destruct Hw.
Qed.

(** X20: when the body of the partner [upload_prices] returns, every
    remnant whose code the campaign lists has a digit in its price before
    the first ['.'], the prices are the payloads of these remnants in
    their order, and the marketplace has received them after the listing
    requests in batches of 1 to 500 payloads. *)
Theorem market_upload_prices_result (api : Market.marketplace) (fuel : nat)
    (ws : list dict) (campaign : string) (log log' : list Market.request)
    (prices : list Market.price_payload) :
  Market.upload_prices api fuel ws campaign log = Some (Done prices, log') →
  ∃ ids log1 chunks,
    Market.get_offer_ids api fuel campaign log = Some (Done ids, log1)
    ∧ prices = market_price <$> filter (λ w, key w ∈ ids) ws
    ∧ Forall (λ w, key w ∈ ids → priced w = true) ws
    ∧ log' = log1 ++ (Market.PostPrices campaign <$> chunks)
    ∧ concat chunks = prices
    ∧ Forall (λ chunk, 0 < length chunk ≤ 500) chunks.
Proof.
  unfold Market.upload_prices, Net.bind.
  destruct (Market.get_offer_ids api fuel campaign log)
    as [[[ids|f] log1]|]; [|done..].
  destruct (Market.create_prices ws ids) as [out|e] eqn:Hprices; [|done].
  simpl.
  destruct (push_batches (λ log x, Market.prices_answer api log campaign x)
              (Market.PostPrices campaign) (Market.update_price api campaign)
              out 500 log1 (market_update_price_answer api campaign) ltac:(done))
    as (chunks & Hb & Hcat & Hall & [Hrun|(k & c & f & _ & Hrun & _)]);
    unfold Market.push_prices; rewrite Hb; simpl; unfold Net.bind, Net.ret;
    rewrite Hrun; [|done].
  intros [= <- <-].
  destruct (market_create_prices_filter _ _ _ Hprices) as [Hout Hpriced].
  exists ids, log1, chunks. split; [done|]. split; [done|]. split; [done|].
  split; [done|]. split; [done|].
  eapply Forall_impl; [exact Hall|]. intros c [H1 H2]. simpl. lia.
Qed.

Lemma market_get_offer_ids_pages_witness :
  Market.get_offer_ids Samples.partner 2 "fbs" []
  = Some (Done (Market.shopSku
                  <$> concat (Market.offerMappingEntries
                                <$> [Samples.entries_one; Samples.entries_two])),
          [] ++ market_listing_requests "fbs" ""
                  [Samples.entries_one; Samples.entries_two]).
Proof.
  apply (proj2 (market_get_offer_ids_pages Samples.partner "fbs" [])
           [Samples.entries_one; Samples.entries_two] 2).
  - simpl. split; [reflexivity|]. split; [discriminate|].
    split; reflexivity.
  - simpl. lia.
Defined.


Lemma market_upload_prices_result_witness :
  ∃ ids log1 chunks,
    Market.get_offer_ids Samples.partner 5 "fbs" [] = Some (Done ids, log1)
    ∧ [Market.PricePayload "69785" (Market.Price 5990 "RUR");
       Market.PricePayload "70001" (Market.Price 12490 "RUR")]
      = market_price <$> filter (λ w, key w ∈ ids) Samples.catalogue
    ∧ Forall (λ w, key w ∈ ids → priced w = true) Samples.catalogue
    ∧ [Market.OfferMappingEntries "fbs" "";
       Market.OfferMappingEntries "fbs" "eyJuZXh0";
       Market.PostPrices "fbs"
         [Market.PricePayload "69785" (Market.Price 5990 "RUR");
          Market.PricePayload "70001" (Market.Price 12490 "RUR")]]
      = log1 ++ (Market.PostPrices "fbs" <$> chunks)
    ∧ concat chunks
      = [Market.PricePayload "69785" (Market.Price 5990 "RUR");
         Market.PricePayload "70001" (Market.Price 12490 "RUR")]
    ∧ Forall (λ chunk, 0 < length chunk ≤ 500) chunks.
Proof.
  apply (market_upload_prices_result Samples.partner 5 Samples.catalogue "fbs" []).
  vm_compute. reflexivity.
Defined.

(** ** Stocks of the partner marketplace, uploaded *)

Lemma not_empty_single_items (stocks : list Market.stock_payload) :
  Forall (λ p, ∃ i, Market.items p = [i]) stocks →
  Market.not_empty_stocks stocks
  = Ok (filter (λ p, market_count p ≠ 0%Z) stocks).
Proof.
  induction 1 as [|p stocks [i Hi] _ IH]; [done|].
  simpl. rewrite Hi, IH. simpl. unfold market_count at 1.
  destruct (decide (Market.count i ≠ 0%Z)) as [Hnz|Hz].
  - rewrite filter_cons_True; [done|]. unfold market_count. by rewrite Hi.
  - rewrite filter_cons_False; [done|]. unfold market_count. by rewrite Hi.
Qed.

Lemma market_stocks_single_items ws ids wh clk stocks ids' clk' :
  Market.create_stocks ws ids wh clk = (Ok (stocks, ids'), clk') →
  Forall (λ p, ∃ i, Market.items p = [i]) stocks.
Proof.
  intros Hrun.
  destruct (market_create_stocks_spec _ _ _ _ _ _ _ Hrun)
    as (_ & _ & ps & Hps & ->).
  apply Forall_app. split.
  - apply Forall_forall. intros p Hp.
    destruct (Forall2_elem_r _ _ _ _ Hps Hp) as (w & _ & n & _ & ->).
    by eexists.
  - apply Forall_fmap, Forall_forall. intros id _. by eexists.
Qed.

(** X21: the index [[0]] in the filter of the partner [upload_stocks] never
    fails on what [create_stocks] builds; when the body of [upload_stocks]
    returns, the stock list was sent whole after the listing requests in
    batches of 1 to 2000 payloads, and its first result is the payloads
    with a count other than 0, each the payload of a remnant with its
    resolved quantity and the timestamp of the call. *)
Theorem market_upload_stocks_result (api : Market.marketplace) (fuel : nat)
    (ws : list dict) (campaign : string) (wh : value) (clk : Market.clock) :
  (∀ ids stocks ids' clk',
     Market.create_stocks ws ids wh clk = (Ok (stocks, ids'), clk') →
     Market.not_empty_stocks stocks
     = Ok (filter (λ p, market_count p ≠ 0%Z) stocks))
  ∧
  (∀ log log' not_empty stocks clk',
     Market.upload_stocks api fuel ws campaign wh clk log
     = Some (Done (not_empty, stocks, clk'), log') →
     ∃ ids log1 ids' chunks,
       Market.get_offer_ids api fuel campaign log = Some (Done ids, log1)
       ∧ Market.create_stocks ws ids wh clk = (Ok (stocks, ids'), clk')
       ∧ log' = log1 ++ (Market.PutStocks campaign <$> chunks)
       ∧ concat chunks = stocks
       ∧ Forall (λ chunk, 0 < length chunk ≤ 2000) chunks
       ∧ not_empty = filter (λ p, market_count p ≠ 0%Z) stocks
       ∧ ∀ p, p ∈ not_empty →
           ∃ w n, w ∈ ws ∧ Market.sku p = key w
                  ∧ Market.resolve_stock w = Ok n ∧ n ≠ 0%Z
                  ∧ Market.items p = [Market.Item n "FIT" (market_date clk)]).
Proof.
  split.
  - intros ids stocks ids' clk' Hrun.
    by apply not_empty_single_items, (market_stocks_single_items ws ids wh clk _ ids' clk').
  - intros log log' not_empty stocks clk'.
    unfold Market.upload_stocks, Net.bind.
    destruct (Market.get_offer_ids api fuel campaign log)
      as [[[ids|f] log1]|]; [|done..].
    destruct (Market.create_stocks ws ids wh clk)
      as [[[out ids']|e] clk1] eqn:Hstocks; simpl; [|done].
    destruct (push_batches (λ log x, Market.stocks_answer api log campaign x)
                (Market.PutStocks campaign) (Market.update_stocks api campaign)
                out 2000 log1 (market_update_stocks_answer api campaign)
                ltac:(done))
      as (chunks & Hb & Hcat & Hall & [Hrun|(k & c & f & _ & Hrun & _)]);
      unfold Market.push_stocks; rewrite Hb; simpl; unfold Net.bind, Net.ret;
      rewrite Hrun; [|done].
    rewrite (not_empty_single_items out)
      by by apply (market_stocks_single_items ws ids wh clk _ ids' clk1).
    simpl. intros [= <- <- <- <-].
    exists ids, log1, ids', chunks. split; [done|]. split; [done|].
    split; [done|]. split; [done|]. split.
    { eapply Forall_impl; [exact Hall|]. intros c [H1 H2]. simpl. lia. }
    split; [done|].
    intros p Hp. apply list_elem_of_filter in Hp as [Hnz Hp].
    destruct (market_create_stocks_spec _ _ _ _ _ _ _ Hstocks)
      as (_ & _ & ps & Hps & ->).
    apply elem_of_app in Hp as [Hp|Hp].
    + destruct (Forall2_elem_r _ _ _ _ Hps Hp) as (w & Hw & n & Hn & ->).
      exists w, n. split.
      { eapply elem_of_sublist; [exact Hw|apply matched_sublist]. }
      split; [done|]. split; [done|]. split; [|done]. exact Hnz.
    + apply list_elem_of_fmap in Hp as (i & -> & _). by destruct Hnz.
Qed.

Lemma market_upload_stocks_result_witness :
  ∃ ids log1 ids' chunks,
    Market.get_offer_ids Samples.partner 5 "fbs" [] = Some (Done ids, log1)
    ∧ Market.create_stocks [Samples.casio] ids (PyStr "w1") Samples.ticking
      = (Ok ([market_payload (PyStr "w1") "2024-03-07T23:59:58Z" "69785" 100;
        market_payload (PyStr "w1") "2024-03-07T23:59:58Z" "70001" 0;
        market_payload (PyStr "w1") "2024-03-07T23:59:58Z" "99999" 0], ids'),
         Market.Clock (Market.reading Samples.ticking) 59)
    ∧ [Market.OfferMappingEntries "fbs" "";
       Market.OfferMappingEntries "fbs" "eyJuZXh0";
       Market.PutStocks "fbs"
         [market_payload (PyStr "w1") "2024-03-07T23:59:58Z" "69785" 100;
        market_payload (PyStr "w1") "2024-03-07T23:59:58Z" "70001" 0;
        market_payload (PyStr "w1") "2024-03-07T23:59:58Z" "99999" 0]]
      = log1 ++ (Market.PutStocks "fbs" <$> chunks)
    ∧ concat chunks
      = [market_payload (PyStr "w1") "2024-03-07T23:59:58Z" "69785" 100;
        market_payload (PyStr "w1") "2024-03-07T23:59:58Z" "70001" 0;
        market_payload (PyStr "w1") "2024-03-07T23:59:58Z" "99999" 0]
    ∧ Forall (λ chunk, 0 < length chunk ≤ 2000) chunks
    ∧ [market_payload (PyStr "w1") "2024-03-07T23:59:58Z" "69785" 100]
      = filter (λ p, market_count p ≠ 0%Z)
          [market_payload (PyStr "w1") "2024-03-07T23:59:58Z" "69785" 100;
        market_payload (PyStr "w1") "2024-03-07T23:59:58Z" "70001" 0;
        market_payload (PyStr "w1") "2024-03-07T23:59:58Z" "99999" 0]
    ∧ ∀ p, p ∈ [market_payload (PyStr "w1") "2024-03-07T23:59:58Z" "69785" 100] →
        ∃ w n, w ∈ [Samples.casio] ∧ Market.sku p = key w
               ∧ Market.resolve_stock w = Ok n ∧ n ≠ 0%Z
               ∧ Market.items p
                 = [Market.Item n "FIT" (market_date Samples.ticking)].
Proof.
  apply (proj2 (market_upload_stocks_result Samples.partner 5 [Samples.casio]
                  "fbs" (PyStr "w1") Samples.ticking) []).
  vm_compute. reflexivity.
Defined.

(** ** The form of the timestamp *)

Lemma fills_two : forallb (fills 2) (seq 0 (Z.to_nat 100)) = true.
Proof. by vm_compute. Qed.

Lemma fills_four : forallb (fills 4) (seq 0 (Z.to_nat 10000)) = true.
Proof. by vm_compute. Qed.

Lemma zfill_fills (width : nat) (bound z : Z) :
  forallb (fills width) (seq 0 (Z.to_nat bound)) = true →
  (0 ≤ z < bound)%Z →
  all_digits (Market.zfill width z) = true
  ∧ String.length (Market.zfill width z) = width.
Proof.
  intros Hall Hz. rewrite forallb_forall in Hall.
  specialize (Hall (Z.to_nat z)). rewrite in_seq in Hall.
  specialize (Hall ltac:(lia)). unfold fills in Hall.
  rewrite Z2Nat.id in Hall by lia.
  apply andb_prop in Hall as [Hd Hl]. by apply Nat.eqb_eq in Hl.
Qed.

Lemma all_digits_app (s t : string) :
  all_digits (String.append s t) = all_digits s && all_digits t.
Proof.
  induction s as [|c s IH]; simpl; [done|]. rewrite IH. by rewrite andb_assoc.
Qed.

Lemma length_append (s t : string) :
  String.length (String.append s t) = String.length s + String.length t.
Proof. induction s as [|c s IH]; simpl; [done|]. by rewrite IH. Qed.

Lemma two_digits (s : string) :
  all_digits s = true → String.length s = 2 →
  ∃ a b, s = String a (String b EmptyString)
         ∧ is_digit a = true ∧ is_digit b = true.
Proof.
  destruct s as [|a [|b [|c s]]]; simpl; try done.
  intros Hd _. apply andb_prop in Hd as [Ha Hb].
  apply andb_prop in Hb as [Hb _]. by exists a, b.
Qed.

Lemma four_digits (s : string) :
  all_digits s = true → String.length s = 4 →
  ∃ a b c d, s = String a (String b (String c (String d EmptyString)))
             ∧ is_digit a = true ∧ is_digit b = true
             ∧ is_digit c = true ∧ is_digit d = true.
Proof.
  destruct s as [|a [|b [|c [|d [|e s]]]]]; simpl; try done.
  intros Hd _. apply andb_prop in Hd as [Ha Hd].
  apply andb_prop in Hd as [Hb Hd]. apply andb_prop in Hd as [Hc Hd].
  apply andb_prop in Hd as [Hd _]. by exists a, b, c, d.
Qed.

(** X22: for a reading of the clock within the ranges of a [datetime], the
    timestamp of the partner payloads has the form [YYYY-MM-DDTHH:MM:SSZ]:
    twenty characters, digits between the separators, the microseconds
    dropped. *)
Theorem market_timestamp_form (clk : Market.clock) :
  valid_datetime (Market.reading clk (Market.reads clk)) →
  ∃ y1 y2 y3 y4 m1 m2 d1 d2 h1 h2 n1 n2 s1 s2 : ascii,
    market_date clk
    = string_of_list_ascii
        [y1; y2; y3; y4; "-"; m1; m2; "-"; d1; d2; "T";
         h1; h2; ":"; n1; n2; ":"; s1; s2; "Z"]%char
    ∧ Forall (λ c, is_digit c = true)
        [y1; y2; y3; y4; m1; m2; d1; d2; h1; h2; n1; n2; s1; s2].
Proof.
  intros (Hy & Hm & Hd & Hh & Hn & Hs & _).
  unfold market_date, Market.isoformat, Market.replace_microsecond. simpl.
  set (t := Market.reading clk (Market.reads clk)) in *.
  destruct (zfill_fills 4 10000 (Market.year t) fills_four ltac:(lia)) as [Ay Ly].
  destruct (zfill_fills 2 100 (Market.month t) fills_two ltac:(lia)) as [Am Lm].
  destruct (zfill_fills 2 100 (Market.day t) fills_two ltac:(lia)) as [Ad Ld].
  destruct (zfill_fills 2 100 (Market.hour t) fills_two ltac:(lia)) as [Ah Lh].
  destruct (zfill_fills 2 100 (Market.minute t) fills_two ltac:(lia)) as [An Ln].
  destruct (zfill_fills 2 100 (Market.second t) fills_two ltac:(lia)) as [As Ls].
  destruct (four_digits _ Ay Ly) as (y1 & y2 & y3 & y4 & -> & ? & ? & ? & ?).
  destruct (two_digits _ Am Lm) as (m1 & m2 & -> & ? & ?).
  destruct (two_digits _ Ad Ld) as (d1 & d2 & -> & ? & ?).
  destruct (two_digits _ Ah Lh) as (h1 & h2 & -> & ? & ?).
  destruct (two_digits _ An Ln) as (n1 & n2 & -> & ? & ?).
  destruct (two_digits _ As Ls) as (s1 & s2 & -> & ? & ?).
  exists y1, y2, y3, y4, m1, m2, d1, d2, h1, h2, n1, n2, s1, s2.
  split; [done|]. repeat constructor; done.
Qed.

Lemma market_timestamp_form_witness :
  ∃ y1 y2 y3 y4 m1 m2 d1 d2 h1 h2 n1 n2 s1 s2 : ascii,
    market_date Samples.ticking
    = string_of_list_ascii
        [y1; y2; y3; y4; "-"; m1; m2; "-"; d1; d2; "T";
         h1; h2; ":"; n1; n2; ":"; s1; s2; "Z"]%char
    ∧ Forall (λ c, is_digit c = true)
        [y1; y2; y3; y4; m1; m2; d1; d2; h1; h2; n1; n2; s1; s2].
Proof.
  apply (market_timestamp_form Samples.ticking).
  unfold valid_datetime. simpl. lia.
Defined.
